(** * captain-sim: acoustic and optical underwater channels (channels.py)

    Shallow embedding of [src/channels.py].

    Numbers.  A Python [float] is modelled as a real number of [R]: the
    arithmetic is the exact one, without rounding, infinities or NaN, and a
    power never leaves the range of the floats, so that [OverflowError] is
    not part of the model.  A Python [int] (the packet size) is a [Z].

    Failure.  The functions of Python's [math] module raise [ValueError]
    outside their domain ([log10] of a non-positive number, [sqrt] of a
    negative one), a float division by zero raises [ZeroDivisionError], an
    [assert] that fails raises [AssertionError] with its message and a name
    that is bound nowhere raises [NameError].  Every method is therefore a
    function into [result], evaluated in the order Python evaluates it.

    Randomness.  [random()] reads the module-level generator of Python's
    [random] module.  The generator is modelled as the infinite sequence of
    numbers it is going to return together with the count of those already
    handed out. *)

From Stdlib Require Import Reals Lra Lia ZArith List String Bool.
Import ListNotations.

Local Open Scope R_scope.

(** ** Exceptions and the error monad *)

Inductive exn : Type :=
| AssertionError (msg : string)
| ValueError
| ZeroDivisionError
| NameError (name : string)
| NotImplementedError.

Inductive result (A : Type) : Type :=
| Ok (a : A)
| Err (e : exn).

Arguments Ok {A} a.
Arguments Err {A} e.

Definition bind {A B : Type} (r : result A) (k : A -> result B) : result B :=
  match r with
  | Ok a => k a
  | Err e => Err e
  end.

Declare Scope py_scope.
Delimit Scope py_scope with py.
Notation "x <- r ;; k" := (bind r (fun x => k))
  (at level 61, r at next level, right associativity) : py_scope.
Local Open Scope py_scope.

(** ** Python's float operations on the reals *)

Module Py.

(** [x < y], [x <= y], [x == y] on floats. *)
Definition lt (x y : R) : bool := if Rlt_dec x y then true else false.
Definition le (x y : R) : bool := if Rle_dec x y then true else false.
Definition eq (x y : R) : bool := if Req_dec_T x y then true else false.

(** [x / y]: a float division by zero raises. *)
Definition div (x y : R) : result R :=
  if Req_dec_T y 0 then Err ZeroDivisionError else Ok (x / y).

(** [math.log10]. *)
Definition log10 (x : R) : result R :=
  if Rlt_dec 0 x then Ok (ln x / ln 10) else Err ValueError.

(** [math.sqrt]. *)
Definition sqrt (x : R) : result R :=
  if Rle_dec 0 x then Ok (R_sqrt.sqrt x) else Err ValueError.

(** [b ** y] for a positive float base [b] and a float exponent. *)
Definition fpow (b y : R) : R := Rpower b y.

(** [x ** n] and [pow(x, n)] for an integer exponent: zero to a negative
    power raises, any other case is the integer power. *)
Definition ipow (x : R) (n : Z) : result R :=
  if (n <? 0)%Z
  then (if Req_dec_T x 0 then Err ZeroDivisionError else Ok (powerRZ x n))
  else Ok (powerRZ x n).

(** [math.e] and [math.pi]. *)
Definition e : R := exp 1.
Definition pi : R := PI.

(** [x in xs] on a list of floats. *)
Definition mem (x : R) (xs : list R) : bool := existsb (eq x) xs.

End Py.

(** ** The random source *)

Record RandomSource : Type := mkSource {
  stream : nat -> R;
  consumed : nat
}.

(** Every number of the stream is a draw of [random()]: it lies in [0,1). *)
Definition uniform_source (rs : RandomSource) : Prop :=
  forall n : nat, 0 <= stream rs n < 1.

(** [random()]: the next number, and the source one position further. *)
Definition random (rs : RandomSource) : R * RandomSource :=
  (stream rs (consumed rs), mkSource (stream rs) (S (consumed rs))).

(** A computation that may raise and may draw from the random source. *)
Definition rand (A : Type) : Type := RandomSource -> result A * RandomSource.

(** ** Names

    What a Python name is bound to.  A method body looks a name up among its
    parameters, then in the module, then among the builtins. *)

Inductive value : Type :=
| VFloat (x : R)
| VInt (n : Z)
| VNone
| VObject (name : string).

Definition scope : Type := list (string * value).

Fixpoint lookup (name : string) (sc : scope) : option value :=
  match sc with
  | [] => None
  | (n, v) :: rest => if String.eqb name n then Some v else lookup name rest
  end.

(** The names bound at the top level of [channels.py]. *)
Definition module_names : list string :=
  ["random"; "log10"; "sqrt"; "erfc"; "cos"; "pi"; "e";
   "Channel"; "AcousticChannel"; "OpticalChannel"]%string.

(** Python's builtin functions and constants. *)
Definition builtin_names : list string :=
  ["abs"; "aiter"; "all"; "anext"; "any"; "ascii"; "bin"; "bool";
   "breakpoint"; "bytearray"; "bytes"; "callable"; "chr"; "classmethod";
   "compile"; "complex"; "delattr"; "dict"; "dir"; "divmod"; "enumerate";
   "eval"; "exec"; "filter"; "float"; "format"; "frozenset"; "getattr";
   "globals"; "hasattr"; "hash"; "help"; "hex"; "id"; "input"; "int";
   "isinstance"; "issubclass"; "iter"; "len"; "list"; "locals"; "map";
   "max"; "memoryview"; "min"; "next"; "object"; "oct"; "open"; "ord";
   "pow"; "print"; "property"; "range"; "repr"; "reversed"; "round";
   "set"; "setattr"; "slice"; "sorted"; "staticmethod"; "str"; "sum";
   "super"; "tuple"; "type"; "vars"; "zip"; "__import__";
   "True"; "False"; "None"; "NotImplemented"; "Ellipsis"; "__debug__"]%string.

Definition bound_in (name : string) (names : list string) : bool :=
  existsb (String.eqb name) names.

Definition load_name (locals : scope) (name : string) : result value :=
  match lookup name locals with
  | Some v => Ok v
  | None =>
      if bound_in name module_names || bound_in name builtin_names
      then Ok (VObject name)
      else Err (NameError name)
  end.

(** ** Channel *)

Module Channel.

Definition use : rand bool := fun rs => (Err NotImplementedError, rs).

End Channel.

(** ** AcousticChannel *)

Record AcousticChannel : Type := mkAcoustic {
  ac_k : R;
  ac_s : R;
  ac_w : R
}.

Module AcousticChannel.

Definition kvalues : list R := [1.0; 1.5; 2.0].
Definition soundSpeed : R := 1500.

(** [__init__]: the three assertions, then the three fields. *)
Definition init (k s w : R) : result AcousticChannel :=
  if negb (Py.mem k kvalues) then Err (AssertionError "k = 1.0 or 1.5 or 2.0")
  else if negb (Py.le 0 s && Py.le s 1) then Err (AssertionError "0 <= s <= 1")
  else if negb (Py.le 0 w) then Err (AssertionError "wind speed must be positive")
  else Ok (mkAcoustic k s w).

Definition get_propagation_time (distance : R) : result R :=
  Py.div distance soundSpeed.

(** The two branches of Thorp's formula, before the division by 1000. *)
Definition thorp_high (frequency : R) : result R :=
  let f := frequency ^ 2 in
  a <- Py.div (0.11 * f) (1 + f) ;;
  b <- Py.div f (4100 + frequency) ;;
  c <- Py.ipow 10 (-4) ;;
  Ok (a + 44 * b + (2.75 * c * f + 0.003)).

Definition thorp_low (frequency : R) : result R :=
  let f := frequency ^ 2 in
  a <- Py.div f (1 + f) ;;
  Ok (0.002 + 0.11 * a + 0.011 * f).

Definition thorp (frequency : R) : result R :=
  let f := frequency ^ 2 in
  atten <- (if Py.lt 0.4 f then thorp_high frequency
            else thorp_low frequency) ;;
  Ok (atten / 1000).

Definition pathloss (self : AcousticChannel) (distance frequency : R)
  : result R :=
  l <- Py.log10 distance ;;
  t <- thorp frequency ;;
  Ok (10.0 * ac_k self * l + distance * t).

Definition noise (self : AcousticChannel) (frequency : R) : result R :=
  l <- Py.log10 frequency ;;
  let nTurbulence := 17 - 30 * l in
  let nTurbulence := Py.fpow 10 (nTurbulence * 0.1) in
  l1 <- Py.log10 frequency ;;
  l2 <- Py.log10 (frequency + 0.03) ;;
  let nShipping := 40 + 20 * (ac_s self - 0.5) + 26 * l1 - 60 * l2 in
  let nShipping := Py.fpow 10 (nShipping * 0.1) in
  sw <- Py.sqrt (ac_w self) ;;
  l3 <- Py.log10 frequency ;;
  l4 <- Py.log10 (frequency + 0.4) ;;
  let nWind := 50 + 7.5 * sw + 20 * l3 - 40 * l4 in
  let nWind := Py.fpow 10 (nWind * 0.1) in
  l5 <- Py.log10 frequency ;;
  let nThermal := 20 * l5 - 15 in
  let nThermal := Py.fpow 10 (nThermal * 0.1) in
  l6 <- Py.log10 (nTurbulence + nShipping + nWind + nThermal) ;;
  Ok (10 * l6).

(** [psize] is not used by [snr_dB]: whatever it is bound to is accepted. *)
Definition snr_dB (self : AcousticChannel) (distance frequency Pt : R)
  (psize : value) (noise_bw : R) : result R :=
  pl <- pathloss self distance frequency ;;
  nf0 <- noise self frequency ;;
  let nf := noise_bw * nf0 in
  let snrdB := Pt - pl - nf in
  Ok snrdB.

(** [snr]: the arguments of the call to [snr_dB] are evaluated from left to
    right, the fourth one is the name [size]; the result of the power is
    assigned to a local variable and the body ends without a [return]. *)
Definition snr (self : AcousticChannel) (distance frequency Pt : R)
  (psize : Z) (noise_bw : R) : result value :=
  let locals : scope :=
    [("self", VObject "self"); ("distance", VFloat distance);
     ("frequency", VFloat frequency); ("Pt", VFloat Pt);
     ("psize", VInt psize); ("noise_bw", VFloat noise_bw)]%string in
  size <- load_name locals "size" ;;
  d <- snr_dB self distance frequency Pt size noise_bw ;;
  let snr := Py.fpow 10 (d / 10) in
  Ok VNone.

(** The default value of [noise_bw]. *)
Definition noise_bw_default : R := 2.35.

Definition per (erfc : R -> R) (self : AcousticChannel)
  (distance frequency Pt : R) (psize : Z) (noise_bw : R) : result R :=
  pl <- pathloss self distance frequency ;;
  nf0 <- noise self frequency ;;
  let nf := noise_bw * nf0 in
  let snrdB := Pt - pl - nf in
  let snr := Py.fpow 10 (snrdB / 10) in
  r <- Py.sqrt snr ;;
  let ber := 0.5 * erfc r in
  w <- Py.ipow (1.0 - ber) (8 * psize) ;;
  Ok (1.0 - w).

Definition perRF (self : AcousticChannel) (distance frequency Pt : R)
  (psize : Z) (noise_bw : R) : result R :=
  let f := frequency in
  let d := distance in
  pl <- pathloss self d f ;;
  nf0 <- noise self f ;;
  let nf := noise_bw * nf0 in
  let snrdB := Pt - pl - nf in
  let snr := Py.fpow 10 (snrdB / 10) in
  ratio <- Py.div snr (1 + snr) ;;
  r <- Py.sqrt ratio ;;
  let ber := 0.5 * (1 - r) in
  w <- Py.ipow (1.0 - ber) (8 * psize) ;;
  Ok (1.0 - w).

Definition use (self : AcousticChannel) (frequency power distance : R)
  (packetSize : Z) : rand bool :=
  fun rs =>
    match perRF self distance frequency power packetSize noise_bw_default with
    | Err e => (Err e, rs)
    | Ok per => let (r, rs') := random rs in (Ok (negb (Py.lt r per)), rs')
    end.

End AcousticChannel.

(** ** OpticalChannel *)

Record OpticalChannel : Type := mkOptical {
  oc_c : R;
  oc_T : R;
  oc_S : R;
  oc_R : R;
  oc_Id : R;
  oc_Il : R;
  oc_Ar : R;
  oc_At : R;
  oc_bw : R;
  oc_theta : R
}.

Module OpticalChannel.

Definition q : R := 1.6e-19.
Definition K : R := 1.38e-23.
Definition lightSpeed : R := 2.25e8.

Definition init (c T S R Id Il Ar At bw theta : R) : result OpticalChannel :=
  Ok (mkOptical c T S R Id Il Ar At bw theta).

Definition get_propagation_time (distance : R) : result R :=
  Py.div distance lightSpeed.

Definition snr (self : OpticalChannel) (P distance d beta : R) : result R :=
  let p := 2 * P * oc_Ar self * cos beta in
  p <- Py.div p (Py.pi * (distance ^ 2) * (1 - cos (oc_theta self))
                 + 2 * oc_At self) ;;
  let p := p * Py.fpow Py.e (- oc_c self * d) in
  thermalNoise <- Py.div (4 * K * oc_T self * oc_bw self) (oc_R self) ;;
  let currentNoise := 2 * q * (oc_Id self + oc_Il self) * oc_bw self in
  snr <- Py.div ((oc_S self * p) ^ 2) (currentNoise + thermalNoise) ;;
  Ok snr.

Definition snr_dB (self : OpticalChannel) (P distance d beta : R) : result R :=
  s <- snr self P distance d beta ;;
  l <- Py.log10 s ;;
  Ok (10 * l).

Definition per (erfc : R -> R) (self : OpticalChannel) (P distance d beta : R)
  (psize : Z) : result R :=
  let p := 2 * P * oc_Ar self * cos beta in
  p <- Py.div p (Py.pi * (distance ^ 2) * (1 - cos (oc_theta self))
                 + 2 * oc_At self) ;;
  let p := p * Py.fpow Py.e (- oc_c self * d) in
  thermalNoise <- Py.div (4 * K * oc_T self * oc_bw self) (oc_R self) ;;
  let currentNoise := 2 * q * (oc_Id self + oc_Il self) * oc_bw self in
  snr <- Py.div ((oc_S self * p) ^ 2) (currentNoise + thermalNoise) ;;
  r <- Py.sqrt snr ;;
  let ber := 0.5 * erfc r in
  w <- Py.ipow (1.0 - ber) (8 * psize) ;;
  let per := 1.0 - w in
  Ok per.

Definition perRF (self : OpticalChannel) (P distance d beta : R) (psize : Z)
  : result R :=
  let p := 2 * P * oc_Ar self * cos beta in
  p <- Py.div p (Py.pi * (distance ^ 2) * (1 - cos (oc_theta self))
                 + 2 * oc_At self) ;;
  let p := p * Py.fpow Py.e (- oc_c self * d) in
  thermalNoise <- Py.div (4 * K * oc_T self * oc_bw self) (oc_R self) ;;
  let currentNoise := 2 * q * (oc_Id self + oc_Il self) * oc_bw self in
  snr <- Py.div ((oc_S self * p) ^ 2) (currentNoise + thermalNoise) ;;
  ratio <- Py.div snr (1 + snr) ;;
  r <- Py.sqrt ratio ;;
  let ber := 0.5 * (1 - r) in
  w <- Py.ipow (1.0 - ber) (8 * psize) ;;
  let per := 1.0 - w in
  Ok per.

Definition use (self : OpticalChannel) (power distance d beta : R)
  (psize : Z) : rand bool :=
  fun rs =>
    match perRF self power distance d beta psize with
    | Err e => (Err e, rs)
    | Ok per => let (r, rs') := random rs in (Ok (negb (Py.lt r per)), rs')
    end.

End OpticalChannel.

(** * Reference formulas and sample inputs *)

(** What C8 says, for a tolerance [tol]: wherever [frequency ** 2 = 0.4],
    the values of the two branches are within [tol] of each other. *)
Definition thorp_branches_agree (tol : R) : Prop :=
  forall frequency h l : R,
    frequency ^ 2 = 0.4 ->
    AcousticChannel.thorp_high frequency = Ok h ->
    AcousticChannel.thorp_low frequency = Ok l ->
    Rabs (h - l) <= tol.

(** The quantities of the optical SNR, written as real expressions. *)
Definition beam_spread (self : OpticalChannel) (distance : R) : R :=
  PI * distance ^ 2 * (1 - cos (oc_theta self)) + 2 * oc_At self.

Definition received_power (self : OpticalChannel) (P distance d beta : R) : R :=
  2 * P * oc_Ar self * cos beta / beam_spread self distance
  * exp (- oc_c self * d).

Definition thermalNoise (self : OpticalChannel) : R :=
  4 * OpticalChannel.K * oc_T self * oc_bw self / oc_R self.

Definition currentNoise (self : OpticalChannel) : R :=
  2 * OpticalChannel.q * (oc_Id self + oc_Il self) * oc_bw self.

Definition linear_snr (self : OpticalChannel) (P distance d beta : R) : R :=
  (oc_S self * received_power self P distance d beta) ^ 2
  / (currentNoise self + thermalNoise self).

(** What the specification says [per] and [perRF] are: the packet
    aggregation of the bit error rate, on the value of the [snr] method. *)
Definition per_of_snr (erfc : R -> R) (self : OpticalChannel)
  (P distance d beta : R) (psize : Z) : result R :=
  snr <- OpticalChannel.snr self P distance d beta ;;
  r <- Py.sqrt snr ;;
  w <- Py.ipow (1.0 - 0.5 * erfc r) (8 * psize) ;;
  Ok (1.0 - w).

Definition perRF_of_snr (self : OpticalChannel)
  (P distance d beta : R) (psize : Z) : result R :=
  snr <- OpticalChannel.snr self P distance d beta ;;
  ratio <- Py.div snr (1 + snr) ;;
  r <- Py.sqrt ratio ;;
  w <- Py.ipow (1.0 - 0.5 * (1 - r)) (8 * psize) ;;
  Ok (1.0 - w).

(** BPSK bit error rate with AWGN and with Rayleigh fading, and the packet
    error rate of a packet of [psize] bytes, as real expressions. *)
Definition ber_awgn (erfc : R -> R) (snr : R) : R := 0.5 * erfc (sqrt snr).

Definition ber_rayleigh (snr : R) : R := 0.5 * (1 - sqrt (snr / (1 + snr))).

Definition packet_error (ber : R) (psize : Z) : R :=
  1 - (1 - ber) ^ Z.to_nat (8 * psize).

(** The SNR of the acoustic channel, from the path loss and the noise. *)
Definition acoustic_snr (Pt pl noise_bw n : R) : R :=
  Py.fpow 10 ((Pt - pl - noise_bw * n) / 10).

(** Two results, the first not larger than the second. *)
Definition both_le (r1 r2 : result R) : Prop :=
  exists v1 v2 : R, r1 = Ok v1 /\ r2 = Ok v2 /\ v1 <= v2.

(** A result in the closed unit interval. *)
Definition in_unit_interval (r : result R) : Prop :=
  exists v : R, r = Ok v /\ 0 <= v <= 1.

(** Parameters that are physical quantities: a positive temperature,
    resistance and bandwidth, currents and a transmitter area that are not
    negative, and a beam that spreads or a transmitter that has a size. *)
Definition physical (self : OpticalChannel) : Prop :=
  0 < oc_T self /\ 0 < oc_R self /\ 0 < oc_bw self
  /\ 0 <= oc_Id self /\ 0 <= oc_Il self /\ 0 <= oc_At self
  /\ (0 < oc_At self \/ cos (oc_theta self) < 1).

(** A function with the two properties used of [math.erfc]: it takes the
    value 1 at 0, decreases from 2 to 0 and stays between them. *)
Definition logistic_erfc (x : R) : R := 2 / (1 + exp x).

(** The photodiode of the specification's scenario. *)
Definition photodiode : OpticalChannel :=
  mkOptical 0.1 300 0.5 1e7 1e-9 1e-9 1e-4 1e-4 1e7 0.5.

(** An acoustic channel: [AcousticChannel(2.0, 0.5, 0)]. *)
Definition stojanovic : AcousticChannel := mkAcoustic 2.0 0.5 0.

(** A random source that returns 0.5 at every draw. *)
Definition halves : RandomSource := mkSource (fun _ => 0.5) 0.

(** An optical channel with a shunt resistance of -1 ohm. *)
Definition negative_resistance : OpticalChannel :=
  mkOptical 0 300 1 (-1) 0 0 1 1 1e20 0.

(** The four noise powers of the acoustic channel and their sum, as real
    expressions: turbulence, shipping, wind and thermal noise. *)
Definition log10r (x : R) : R := ln x / ln 10.

Definition turbulence_dB (frequency : R) : R := 17 - 30 * log10r frequency.

Definition shipping_dB (self : AcousticChannel) (frequency : R) : R :=
  40 + 20 * (ac_s self - 0.5) + 26 * log10r frequency
  - 60 * log10r (frequency + 0.03).

Definition wind_dB (self : AcousticChannel) (frequency : R) : R :=
  50 + 7.5 * sqrt (ac_w self) + 20 * log10r frequency
  - 40 * log10r (frequency + 0.4).

Definition thermal_dB (frequency : R) : R := 20 * log10r frequency - 15.

Definition noise_sum (self : AcousticChannel) (frequency : R) : R :=
  Py.fpow 10 (turbulence_dB frequency * 0.1)
  + Py.fpow 10 (shipping_dB self frequency * 0.1)
  + Py.fpow 10 (wind_dB self frequency * 0.1)
  + Py.fpow 10 (thermal_dB frequency * 0.1).

(** The value of the high branch of Thorp's formula. *)
Definition thorp_high_value (frequency : R) : R :=
  0.11 * frequency ^ 2 / (1 + frequency ^ 2)
  + 44 * frequency ^ 2 / (4100 + frequency)
  + 2.75e-4 * frequency ^ 2 + 0.003.

(** The value of the low branch of Thorp's formula. *)
Definition thorp_low_value (frequency : R) : R :=
  0.002 + 0.11 * frequency ^ 2 / (1 + frequency ^ 2) + 0.011 * frequency ^ 2.

(** Three results of one error-rate function on packet sizes [n], [m] and
    [n + m]: the probability that the long packet gets through is the
    product of those of the two short ones. *)
Definition success_multiplies (rn rm rnm : result R) : Prop :=
  exists vn vm vnm : R,
    rn = Ok vn /\ rm = Ok vm /\ rnm = Ok vnm
    /\ 1 - vnm = (1 - vn) * (1 - vm).

(** An optical channel with a transmitter area of -10 square metres and a
    beam that diverges by [pi]. *)
Definition negative_area : OpticalChannel :=
  mkOptical 0 1e4 1 1.725 1 0 1 (-10) 3.125e18 PI.

(** An optical channel with a dark current of -1 A and no thermal noise. *)
Definition negative_dark_current : OpticalChannel :=
  mkOptical 0 0 1 1 (-1) 0 1 0.5 3.125e18 0.

(** * Properties *)

(** ** The float operations *)

(** Decimal constants such as [2.75e-4] are turned into quotients of
    integers, which [field] and [lra] both read. *)
Ltac decimals :=
  unfold Q2R; cbn [QArith_base.Qnum QArith_base.Qden];
  repeat match goal with
         | |- context [Z.pow_pos ?b ?e] =>
             let v := eval vm_compute in (Z.pow_pos b e) in
             change (Z.pow_pos b e) with v
         end.

Lemma div_ok (x y : R) : y <> 0 -> Py.div x y = Ok (x / y).
Proof. intros Hy. unfold Py.div. destruct (Req_dec_T y 0); [contradiction | reflexivity]. Qed.

Lemma div_zero (x : R) : Py.div x 0 = Err ZeroDivisionError.
Proof. unfold Py.div. destruct (Req_dec_T 0 0); [reflexivity | contradiction]. Qed.

Lemma log10_ok (x : R) : 0 < x -> Py.log10 x = Ok (ln x / ln 10).
Proof. intros Hx. unfold Py.log10. destruct (Rlt_dec 0 x); [reflexivity | contradiction]. Qed.

Lemma log10_domain (x : R) : x <= 0 -> Py.log10 x = Err ValueError.
Proof. intros Hx. unfold Py.log10. destruct (Rlt_dec 0 x); [lra | reflexivity]. Qed.

Lemma sqrt_ok (x : R) : 0 <= x -> Py.sqrt x = Ok (sqrt x).
Proof. intros Hx. unfold Py.sqrt. destruct (Rle_dec 0 x); [reflexivity | contradiction]. Qed.

Lemma sqrt_domain (x : R) : x < 0 -> Py.sqrt x = Err ValueError.
Proof. intros Hx. unfold Py.sqrt. destruct (Rle_dec 0 x); [lra | reflexivity]. Qed.

Lemma ipow_ok (x : R) (n : Z) :
  (0 <= n)%Z -> Py.ipow x n = Ok (x ^ Z.to_nat n).
Proof.
  intros Hn. unfold Py.ipow.
  destruct (Z.ltb_spec n 0); [lia | ].
  rewrite pow_powerRZ, Z2Nat.id by assumption. reflexivity.
Qed.

Lemma lt_true (x y : R) : Py.lt x y = true <-> x < y.
Proof. unfold Py.lt. destruct (Rlt_dec x y); split; intros; auto; discriminate. Qed.

Lemma lt_false (x y : R) : Py.lt x y = false <-> y <= x.
Proof.
  unfold Py.lt. destruct (Rlt_dec x y); split; intros; auto; try discriminate; lra.
Qed.

Lemma le_true (x y : R) : Py.le x y = true <-> x <= y.
Proof. unfold Py.le. destruct (Rle_dec x y); split; intros; auto; discriminate. Qed.

Lemma eq_true (x y : R) : Py.eq x y = true <-> x = y.
Proof. unfold Py.eq. destruct (Req_dec_T x y); split; intros; auto; discriminate. Qed.

Lemma mem_kvalues (k : R) :
  Py.mem k AcousticChannel.kvalues = true <-> k = 1.0 \/ k = 1.5 \/ k = 2.0.
Proof.
  unfold Py.mem, AcousticChannel.kvalues. cbn [existsb].
  rewrite !orb_true_iff, !eq_true. intuition discriminate.
Qed.

Lemma ten_to_minus_four : Py.ipow 10 (-4) = Ok (1 / 10000).
Proof.
  unfold Py.ipow. simpl. destruct (Req_dec_T 10 0); [lra | ].
  f_equal. lra.
Qed.

(** ** Thorp's attenuation *)

Lemma one_plus_square_nonzero (x : R) : 1 + x ^ 2 <> 0.
Proof. nra. Qed.

Lemma thorp_high_ok (frequency : R) :
  4100 + frequency <> 0 ->
  AcousticChannel.thorp_high frequency =
    Ok (0.11 * frequency ^ 2 / (1 + frequency ^ 2)
        + 44 * frequency ^ 2 / (4100 + frequency)
        + 2.75e-4 * frequency ^ 2 + 0.003).
Proof.
  intros H. unfold AcousticChannel.thorp_high.
  rewrite div_ok by apply one_plus_square_nonzero.
  rewrite div_ok by assumption.
  rewrite ten_to_minus_four. unfold bind. f_equal. decimals. field.
  split; [assumption | apply one_plus_square_nonzero].
Qed.

Lemma thorp_high_zero_division (frequency : R) :
  4100 + frequency = 0 ->
  AcousticChannel.thorp_high frequency = Err ZeroDivisionError.
Proof.
  intros H. unfold AcousticChannel.thorp_high.
  rewrite div_ok by apply one_plus_square_nonzero.
  rewrite H, div_zero. reflexivity.
Qed.

Lemma thorp_low_ok (frequency : R) :
  AcousticChannel.thorp_low frequency =
    Ok (0.002 + 0.11 * frequency ^ 2 / (1 + frequency ^ 2)
        + 0.011 * frequency ^ 2).
Proof.
  unfold AcousticChannel.thorp_low.
  rewrite div_ok by apply one_plus_square_nonzero.
  unfold bind. f_equal. decimals. field.
  apply (one_plus_square_nonzero frequency).
Qed.

Lemma thorp_two_branches_aux (frequency : R) :
  (frequency ^ 2 > 0.4 -> 4100 + frequency <> 0 ->
   AcousticChannel.thorp frequency =
     Ok ((0.11 * frequency ^ 2 / (1 + frequency ^ 2)
          + 44 * frequency ^ 2 / (4100 + frequency)
          + 2.75e-4 * frequency ^ 2 + 0.003) / 1000))
  /\ (~ frequency ^ 2 > 0.4 ->
      AcousticChannel.thorp frequency =
        Ok ((0.002 + 0.11 * frequency ^ 2 / (1 + frequency ^ 2)
             + 0.011 * frequency ^ 2) / 1000)).
Proof.
  split.
  - intros Hf Hd. unfold AcousticChannel.thorp.
    assert (Hlt : Py.lt 0.4 (frequency ^ 2) = true) by (apply lt_true; lra).
    rewrite Hlt, thorp_high_ok by assumption. reflexivity.
  - intros Hf. unfold AcousticChannel.thorp.
    assert (Hlt : Py.lt 0.4 (frequency ^ 2) = false) by (apply lt_false; lra).
    rewrite Hlt, thorp_low_ok. reflexivity.
Qed.

(** C6: [thorp] is the two-branch formula, the branch chosen by
    [frequency ** 2 > 0.4], with the constants of the source, and the result
    of the branch divided by 1000.  The high branch divides by
    [4100 + frequency]: it is defined where that is not zero. *)
Theorem thorp_two_branches (frequency : R) :
  let f := frequency ^ 2 in
  (f > 0.4 -> 4100 + frequency <> 0 ->
   AcousticChannel.thorp frequency =
     Ok ((0.11 * f / (1 + f) + 44 * f / (4100 + frequency)
          + 2.75e-4 * f + 0.003) / 1000))
  /\ (~ f > 0.4 ->
      AcousticChannel.thorp frequency =
        Ok ((0.002 + 0.11 * f / (1 + f) + 0.011 * f) / 1000)).
Proof. intros f. subst f. exact (thorp_two_branches_aux frequency). Qed.

Lemma thorp_two_branches_witness :
  AcousticChannel.thorp 1 =
    Ok ((0.11 * 1 ^ 2 / (1 + 1 ^ 2) + 44 * 1 ^ 2 / (4100 + 1)
         + 2.75e-4 * 1 ^ 2 + 0.003) / 1000)
  /\ AcousticChannel.thorp 0 =
       Ok ((0.002 + 0.11 * 0 ^ 2 / (1 + 0 ^ 2) + 0.011 * 0 ^ 2) / 1000).
Proof.
  split.
  - apply (proj1 (thorp_two_branches 1)); lra.
  - apply (proj2 (thorp_two_branches 0)); lra.
Defined.

(** At the boundary the branch taken is the low one, and the two formulas
    are about 0.001 apart. *)
Lemma thorp_boundary (frequency : R) :
  frequency ^ 2 = 0.4 ->
  exists h l : R,
    AcousticChannel.thorp_high frequency = Ok h
    /\ AcousticChannel.thorp_low frequency = Ok l
    /\ AcousticChannel.thorp frequency = Ok (l / 1000)
    /\ 0.0010 < h - l < 0.0011.
Proof.
  intros Hf.
  assert (Hrange : -1 < frequency < 1) by (revert Hf; decimals; nra).
  assert (Hd : 4100 + frequency <> 0) by lra.
  rewrite thorp_high_ok by assumption.
  unfold AcousticChannel.thorp.
  assert (Hlt : Py.lt 0.4 (frequency ^ 2) = false).
  { apply lt_false. rewrite Hf. lra. }
  rewrite Hlt, thorp_low_ok.
  eexists. eexists. repeat split.
  - rewrite Hf.
    set (b := 44 * 0.4 / (4100 + frequency)).
    assert (Hb : b * (4100 + frequency) = 44 * 0.4) by (unfold b; field; assumption).
    assert (0.00429 < b) by (revert Hb; decimals; nra).
    revert Hb. decimals. nra.
  - rewrite Hf.
    set (b := 44 * 0.4 / (4100 + frequency)).
    assert (Hb : b * (4100 + frequency) = 44 * 0.4) by (unfold b; field; assumption).
    assert (b < 0.00430) by (revert Hb; decimals; nra).
    revert Hb. decimals. nra.
Qed.

Lemma sqrt_boundary : sqrt 0.4 ^ 2 = 0.4.
Proof. simpl. rewrite Rmult_1_r. apply sqrt_sqrt. decimals. lra. Qed.

(** C8, counterexample: at [frequency = sqrt 0.4] the two branches differ by
    more than 0.001 (their values are about 0.038): they do not agree within
    any floating-point tolerance. *)
Lemma thorp_discontinuous_at_boundary : ~ thorp_branches_agree 0.001.
Proof.
  intros Hagree.
  destruct (thorp_boundary (sqrt 0.4) sqrt_boundary) as (h & l & Hh & Hl & _ & Hgap).
  specialize (Hagree (sqrt 0.4) h l sqrt_boundary Hh Hl).
  rewrite Rabs_right in Hagree by (revert Hgap; decimals; lra).
  revert Hagree Hgap. decimals. lra.
Qed.

(** C8, amended: [thorp] has a jump at the branch boundary.  Wherever
    [frequency ** 2 = 0.4], [thorp] returns the low-branch value, and the
    high-branch formula is larger than the low-branch one by between 0.0010
    and 0.0011, that is about 1.0e-6 after the division by 1000. *)
Theorem thorp_jump_at_boundary (frequency : R) :
  frequency ^ 2 = 0.4 ->
  exists h l : R,
    AcousticChannel.thorp_high frequency = Ok h
    /\ AcousticChannel.thorp_low frequency = Ok l
    /\ AcousticChannel.thorp frequency = Ok (l / 1000)
    /\ 0.0010 < h - l < 0.0011
    /\ 1.0e-6 < h / 1000 - l / 1000 < 1.1e-6.
Proof.
  intros Hf.
  destruct (thorp_boundary frequency Hf) as (h & l & Hh & Hl & Ht & Hgap).
  exists h, l. repeat split; try assumption; try apply Hgap;
    revert Hgap; decimals; lra.
Qed.

Lemma thorp_jump_at_boundary_witness :
  sqrt 0.4 ^ 2 = 0.4
  /\ exists h l : R,
       AcousticChannel.thorp_high (sqrt 0.4) = Ok h
       /\ AcousticChannel.thorp_low (sqrt 0.4) = Ok l
       /\ AcousticChannel.thorp (sqrt 0.4) = Ok (l / 1000)
       /\ 0.0010 < h - l < 0.0011
       /\ 1.0e-6 < h / 1000 - l / 1000 < 1.1e-6.
Proof.
  split; [exact sqrt_boundary | exact (thorp_jump_at_boundary (sqrt 0.4) sqrt_boundary)].
Defined.

(** ** Construction *)

(** C2: construction succeeds on [k] in {1.0, 1.5, 2.0}, [0 <= s <= 1] and
    [w >= 0], with the three values as the fields; on any other input it
    raises an [AssertionError] that carries a message, and no object is
    returned. *)
Theorem init_validates (k s w : R) :
  ((k = 1.0 \/ k = 1.5 \/ k = 2.0) /\ 0 <= s <= 1 /\ 0 <= w ->
   AcousticChannel.init k s w = Ok (mkAcoustic k s w))
  /\ (~ (k = 1.0 \/ k = 1.5 \/ k = 2.0) \/ s < 0 \/ s > 1 \/ w < 0 ->
      exists msg : string,
        AcousticChannel.init k s w = Err (AssertionError msg)
        /\ msg <> EmptyString).
Proof.
  pose proof (mem_kvalues k) as Hk.
  unfold AcousticChannel.init. split.
  - intros (Hk' & Hs & Hw).
    apply Hk in Hk'. rewrite Hk'.
    assert (H1 : Py.le 0 s = true) by (apply le_true; lra).
    assert (H2 : Py.le s 1 = true) by (apply le_true; lra).
    assert (H3 : Py.le 0 w = true) by (apply le_true; lra).
    rewrite H1, H2, H3. reflexivity.
  - intros H.
    destruct (Py.mem k AcousticChannel.kvalues) eqn:Ek; simpl.
    2:{ eexists; split; [reflexivity | discriminate]. }
    destruct (Py.le 0 s) eqn:E1; simpl.
    2:{ eexists; split; [reflexivity | discriminate]. }
    destruct (Py.le s 1) eqn:E2; simpl.
    2:{ eexists; split; [reflexivity | discriminate]. }
    destruct (Py.le 0 w) eqn:E3; simpl.
    2:{ eexists; split; [reflexivity | discriminate]. }
    exfalso. apply le_true in E1, E2, E3.
    destruct H as [H | [H | [H | H]]]; [ | lra | lra | lra ].
    apply H, Hk. reflexivity.
Qed.

Lemma init_validates_witness :
  AcousticChannel.init 2.0 0.5 0 = Ok (mkAcoustic 2.0 0.5 0)
  /\ exists msg : string,
       AcousticChannel.init 3 0.5 0 = Err (AssertionError msg)
       /\ msg <> EmptyString.
Proof.
  split.
  - apply (proj1 (init_validates 2.0 0.5 0)). decimals. repeat split; lra.
  - apply (proj2 (init_validates 3 0.5 0)). left. decimals.
    intros [H | [H | H]]; lra.
Defined.

(** ** The acoustic [snr] *)

(** C3: the body of [snr] names [size], which is bound neither among the
    parameters (the fourth one is [psize]) nor in the module nor among the
    builtins: every call raises [NameError] before [snr_dB] is entered, and
    no SNR is returned. *)
Theorem acoustic_snr_raises (self : AcousticChannel)
  (distance frequency Pt : R) (psize : Z) (noise_bw : R) :
  AcousticChannel.snr self distance frequency Pt psize noise_bw
  = Err (NameError "size").
Proof. reflexivity. Qed.

(** ** The optical SNR *)

Lemma e_to_the (x : R) : Py.fpow Py.e x = exp x.
Proof. unfold Py.fpow, Py.e, Rpower. rewrite ln_exp, Rmult_1_r. reflexivity. Qed.

Lemma snr_ok (self : OpticalChannel) (P distance d beta : R) :
  beam_spread self distance <> 0 -> oc_R self <> 0 ->
  currentNoise self + thermalNoise self <> 0 ->
  OpticalChannel.snr self P distance d beta
  = Ok (linear_snr self P distance d beta).
Proof.
  intros HD HR HN. unfold OpticalChannel.snr, Py.pi.
  fold (beam_spread self distance). rewrite div_ok by assumption. cbn [bind].
  rewrite div_ok by assumption. cbn [bind].
  fold (thermalNoise self) (currentNoise self).
  rewrite div_ok by assumption. cbn [bind].
  rewrite e_to_the. reflexivity.
Qed.

(** When it returns, [snr] returns [linear_snr], and no divisor was zero. *)
Lemma snr_inv (self : OpticalChannel) (P distance d beta s : R) :
  OpticalChannel.snr self P distance d beta = Ok s ->
  beam_spread self distance <> 0 /\ oc_R self <> 0
  /\ currentNoise self + thermalNoise self <> 0
  /\ s = linear_snr self P distance d beta.
Proof.
  unfold OpticalChannel.snr, Py.pi. fold (beam_spread self distance). intros H.
  destruct (Req_dec_T (beam_spread self distance) 0) as [E | HD].
  { rewrite E, div_zero in H. discriminate. }
  rewrite div_ok in H by assumption. cbn [bind] in H.
  destruct (Req_dec_T (oc_R self) 0) as [E | HR].
  { rewrite E, div_zero in H. discriminate. }
  rewrite div_ok in H by assumption. cbn [bind] in H.
  fold (thermalNoise self) (currentNoise self) in H.
  destruct (Req_dec_T (currentNoise self + thermalNoise self) 0) as [E | HN].
  { rewrite E, div_zero in H. discriminate. }
  rewrite div_ok in H by assumption. cbn [bind] in H.
  rewrite e_to_the in H. injection H as <-. repeat split; assumption.
Qed.

Lemma optical_per_inline erfc self P distance d beta psize :
  OpticalChannel.per erfc self P distance d beta psize
  = per_of_snr erfc self P distance d beta psize.
Proof.
  unfold OpticalChannel.per, per_of_snr, OpticalChannel.snr.
  destruct (Py.div _ _) as [p | ?]; cbn [bind]; [ | reflexivity].
  destruct (Py.div _ _) as [tn | ?]; cbn [bind]; [ | reflexivity].
  destruct (Py.div _ _) as [s | ?]; cbn [bind]; [ | reflexivity].
  reflexivity.
Qed.

Lemma optical_perRF_inline self P distance d beta psize :
  OpticalChannel.perRF self P distance d beta psize
  = perRF_of_snr self P distance d beta psize.
Proof.
  unfold OpticalChannel.perRF, perRF_of_snr, OpticalChannel.snr.
  destruct (Py.div _ _) as [p | ?]; cbn [bind]; [ | reflexivity].
  destruct (Py.div _ _) as [tn | ?]; cbn [bind]; [ | reflexivity].
  destruct (Py.div _ _) as [s | ?]; cbn [bind]; [ | reflexivity].
  reflexivity.
Qed.

(** C10: the SNR that [per] and [perRF] compute inline is the value of the
    [snr] method on the same arguments: [per] is
    [1 - (1 - 0.5 * erfc (sqrt snr)) ** (8 * psize)] and [perRF] is
    [1 - (1 - 0.5 * (1 - sqrt (snr / (1 + snr)))) ** (8 * psize)] with
    [snr = snr(P, distance, d, beta)], and they raise where [snr] raises. *)
Theorem optical_per_uses_snr (erfc : R -> R) (self : OpticalChannel)
  (P distance d beta : R) (psize : Z) :
  OpticalChannel.per erfc self P distance d beta psize
  = per_of_snr erfc self P distance d beta psize
  /\ OpticalChannel.perRF self P distance d beta psize
     = perRF_of_snr self P distance d beta psize.
Proof. split; [apply optical_per_inline | apply optical_perRF_inline]. Qed.

(** C7: [snr] is [(S * p) ** 2 / (currentNoise + thermalNoise)] with
    [p = 2 * P * Ar * cos beta / (pi * distance ** 2 * (1 - cos theta) + 2 * At)
         * e ** (- c * d)],
    [thermalNoise = 4 * K * T * bw / R] and
    [currentNoise = 2 * q * (Id + Il) * bw], wherever the three divisors are
    not zero. *)
Theorem optical_snr_formula (self : OpticalChannel) (P distance d beta : R) :
  let spread :=
    PI * distance ^ 2 * (1 - cos (oc_theta self)) + 2 * oc_At self in
  let p := 2 * P * oc_Ar self * cos beta / spread * exp (- oc_c self * d) in
  let thermal := 4 * 1.38e-23 * oc_T self * oc_bw self / oc_R self in
  let current := 2 * 1.6e-19 * (oc_Id self + oc_Il self) * oc_bw self in
  spread <> 0 -> oc_R self <> 0 -> current + thermal <> 0 ->
  OpticalChannel.snr self P distance d beta
  = Ok ((oc_S self * p) ^ 2 / (current + thermal)).
Proof.
  intros spread p thermal current HD HR HN.
  apply (snr_ok self P distance d beta); assumption.
Qed.

Lemma photodiode_spread (distance : R) :
  0 < PI * distance ^ 2 * (1 - cos (oc_theta photodiode))
      + 2 * oc_At photodiode.
Proof.
  pose proof (COS_bound (oc_theta photodiode)) as [_ Hc].
  pose proof PI_RGT_0 as Hpi.
  assert (0 <= PI * distance ^ 2 * (1 - cos (oc_theta photodiode))).
  { apply Rmult_le_pos; [ | lra].
    apply Rmult_le_pos; [lra | apply pow2_ge_0]. }
  cbn [oc_At photodiode]. decimals. lra.
Qed.

Lemma optical_snr_formula_witness :
  exists s : R, OpticalChannel.snr photodiode 1 5 5 0 = Ok s /\ 0 < s.
Proof.
  eexists. split.
  - apply (optical_snr_formula photodiode 1 5 5 0).
    + pose proof (photodiode_spread 5). lra.
    + cbn [oc_R photodiode]. decimals. lra.
    + cbn [oc_R oc_T oc_bw oc_Id oc_Il photodiode]. decimals. lra.
  - pose proof (photodiode_spread 5) as HD.
    pose proof (exp_pos (- oc_c photodiode * 5)) as He.
    apply Rdiv_lt_0_compat.
    + apply pow_lt. apply Rmult_lt_0_compat.
      * cbn [oc_S photodiode]. decimals. lra.
      * apply Rmult_lt_0_compat; [ | assumption].
        apply Rdiv_lt_0_compat; [ | assumption].
        rewrite cos_0. cbn [oc_Ar photodiode]. decimals. lra.
    + cbn [oc_R oc_T oc_bw oc_Id oc_Il photodiode]. decimals. lra.
Defined.

(** ** [use] *)

Lemma halves_uniform : uniform_source halves.
Proof. intros n. cbn [stream halves]. decimals. lra. Qed.

Lemma not_lt_iff_ge (r per : R) : negb (Py.lt r per) = true <-> r >= per.
Proof.
  rewrite negb_true_iff, lt_false. split; intros; lra.
Qed.

Lemma acoustic_use_cases self frequency power distance packetSize rs :
  match AcousticChannel.perRF self distance frequency power packetSize 2.35 with
  | Ok per =>
      AcousticChannel.use self frequency power distance packetSize rs
      = (Ok (negb (Py.lt (fst (random rs)) per)), snd (random rs))
  | Err e =>
      AcousticChannel.use self frequency power distance packetSize rs
      = (Err e, rs)
  end.
Proof.
  unfold AcousticChannel.use, AcousticChannel.noise_bw_default.
  destruct (AcousticChannel.perRF _ _ _ _ _ _); reflexivity.
Qed.

Lemma optical_use_cases self power distance d beta psize rs :
  match OpticalChannel.perRF self power distance d beta psize with
  | Ok per =>
      OpticalChannel.use self power distance d beta psize rs
      = (Ok (negb (Py.lt (fst (random rs)) per)), snd (random rs))
  | Err e =>
      OpticalChannel.use self power distance d beta psize rs = (Err e, rs)
  end.
Proof.
  unfold OpticalChannel.use.
  destruct (OpticalChannel.perRF _ _ _ _ _ _); reflexivity.
Qed.

(** C1, counterexample: at [distance = 0] the path loss takes [log10 0.0],
    [perRF] raises [ValueError] and [use] raises with it before [random()]
    is called: no draw is consumed and no boolean is returned. *)
Lemma use_at_distance_zero :
  AcousticChannel.use stojanovic 10 100 0 10 halves = (Err ValueError, halves)
  /\ consumed (snd (AcousticChannel.use stojanovic 10 100 0 10 halves))
     = consumed halves
  /\ ~ (exists (b : bool) (rs' : RandomSource),
          AcousticChannel.use stojanovic 10 100 0 10 halves = (Ok b, rs')
          /\ consumed rs' = S (consumed halves)).
Proof.
  assert (H : AcousticChannel.use stojanovic 10 100 0 10 halves
              = (Err ValueError, halves)).
  { unfold AcousticChannel.use, AcousticChannel.perRF, AcousticChannel.pathloss.
    rewrite log10_domain by lra. reflexivity. }
  rewrite H. split; [reflexivity | ]. split; [reflexivity | ].
  intros (b & rs' & Hb & _). discriminate.
Qed.

(** C1, amended: on every channel and every argument tuple on which [perRF]
    returns a packet error rate, [use] takes exactly one draw of the random
    source, a number of [0,1), moves the source one position and changes
    nothing else, and returns true exactly when the draw is greater than or
    equal to that rate.  Where [perRF] raises, [use] raises the same
    exception and leaves the source where it was. *)
Theorem use_is_one_bernoulli_trial (rs : RandomSource) :
  uniform_source rs ->
  let draw := stream rs (consumed rs) in
  let rs' := mkSource (stream rs) (S (consumed rs)) in
  (forall self frequency power distance packetSize,
      match AcousticChannel.perRF self distance frequency power packetSize 2.35 with
      | Ok per =>
          exists b : bool,
            AcousticChannel.use self frequency power distance packetSize rs
            = (Ok b, rs')
            /\ (b = true <-> draw >= per) /\ 0 <= draw < 1
      | Err e =>
          AcousticChannel.use self frequency power distance packetSize rs
          = (Err e, rs)
      end)
  /\ (forall self power distance d beta psize,
         match OpticalChannel.perRF self power distance d beta psize with
         | Ok per =>
             exists b : bool,
               OpticalChannel.use self power distance d beta psize rs
               = (Ok b, rs')
               /\ (b = true <-> draw >= per) /\ 0 <= draw < 1
         | Err e =>
             OpticalChannel.use self power distance d beta psize rs
             = (Err e, rs)
         end).
Proof.
  intros Hrs draw rs'. split.
  - intros self frequency power distance packetSize.
    pose proof (acoustic_use_cases self frequency power distance packetSize rs) as H.
    destruct (AcousticChannel.perRF _ _ _ _ _ _) as [per | e]; [ | exact H].
    exists (negb (Py.lt draw per)). split; [exact H | ].
    split; [apply not_lt_iff_ge | apply Hrs].
  - intros self power distance d beta psize.
    pose proof (optical_use_cases self power distance d beta psize rs) as H.
    destruct (OpticalChannel.perRF _ _ _ _ _ _) as [per | e]; [ | exact H].
    exists (negb (Py.lt draw per)). split; [exact H | ].
    split; [apply not_lt_iff_ge | apply Hrs].
Qed.

(** ** Bit and packet error rates *)

Lemma pow_unit_interval (x : R) (n : nat) : 0 <= x <= 1 -> 0 <= x ^ n <= 1.
Proof.
  intros Hx. induction n as [ | n IH]; simpl; [lra | nra].
Qed.

Lemma pow_antitone_exponent (x : R) (n m : nat) :
  0 <= x <= 1 -> (n <= m)%nat -> x ^ m <= x ^ n.
Proof.
  intros Hx Hnm. induction Hnm as [ | m Hnm IH]; [lra | ].
  pose proof (pow_unit_interval x m Hx). simpl. nra.
Qed.

Lemma packet_error_range (ber : R) (psize : Z) :
  0 <= ber <= 1 -> 0 <= packet_error ber psize <= 1.
Proof.
  intros Hb. unfold packet_error.
  pose proof (pow_unit_interval (1 - ber) (Z.to_nat (8 * psize))). lra.
Qed.

Lemma packet_error_zero (ber : R) : packet_error ber 0 = 0.
Proof. unfold packet_error. simpl. lra. Qed.

Lemma packet_error_mono_ber (b1 b2 : R) (psize : Z) :
  b1 <= b2 -> b2 <= 1 -> packet_error b1 psize <= packet_error b2 psize.
Proof.
  intros H12 H2. unfold packet_error.
  pose proof (pow_incr (1 - b2) (1 - b1) (Z.to_nat (8 * psize))). lra.
Qed.

Lemma packet_error_mono_psize (ber : R) (n m : Z) :
  0 <= ber <= 1 -> (0 <= n <= m)%Z ->
  packet_error ber n <= packet_error ber m.
Proof.
  intros Hb Hnm. unfold packet_error.
  assert (Hle : (Z.to_nat (8 * n) <= Z.to_nat (8 * m))%nat) by lia.
  assert (Hx : 0 <= 1 - ber <= 1) by lra.
  pose proof (pow_antitone_exponent (1 - ber) _ _ Hx Hle). lra.
Qed.

Lemma ratio_range (snr : R) : 0 <= snr -> 0 <= snr / (1 + snr) <= 1.
Proof.
  intros Hs. split.
  - unfold Rdiv. apply Rmult_le_pos; [assumption | ].
    left. apply Rinv_0_lt_compat. lra.
  - apply Rmult_le_reg_r with (1 + snr); [lra | ].
    unfold Rdiv. rewrite Rmult_assoc, Rinv_l by lra. lra.
Qed.

Lemma ratio_monotone (s1 s2 : R) :
  0 <= s1 -> s1 <= s2 -> s1 / (1 + s1) <= s2 / (1 + s2).
Proof.
  intros H1 H12.
  replace (s1 / (1 + s1)) with (1 - / (1 + s1)) by (field; lra).
  replace (s2 / (1 + s2)) with (1 - / (1 + s2)) by (field; lra).
  assert (/ (1 + s2) <= / (1 + s1)) by (apply Rinv_le_contravar; lra).
  lra.
Qed.

Lemma ber_rayleigh_range (snr : R) :
  0 <= snr -> 0 <= ber_rayleigh snr <= 1.
Proof.
  intros Hs. unfold ber_rayleigh.
  pose proof (ratio_range snr Hs) as [H0 H1].
  pose proof (sqrt_pos (snr / (1 + snr))).
  pose proof (sqrt_le_1_alt _ _ H1) as Hq. rewrite sqrt_1 in Hq.
  decimals. lra.
Qed.

Lemma ber_rayleigh_antitone (s1 s2 : R) :
  0 <= s1 -> s1 <= s2 -> ber_rayleigh s2 <= ber_rayleigh s1.
Proof.
  intros H1 H12. unfold ber_rayleigh.
  pose proof (sqrt_le_1_alt _ _ (ratio_monotone s1 s2 H1 H12)).
  decimals. lra.
Qed.

Section Erfc.

(** [math.erfc] is a function of the C library.  What is used of it is
    that the complementary error function takes its values between 0 and 2
    and does not increase. *)
Variable erfc : R -> R.
Hypothesis erfc_range : forall x : R, 0 <= erfc x <= 2.
Hypothesis erfc_antitone : forall x y : R, x <= y -> erfc y <= erfc x.

Lemma ber_awgn_range (snr : R) : 0 <= ber_awgn erfc snr <= 1.
Proof.
  unfold ber_awgn. pose proof (erfc_range (sqrt snr)). decimals. lra.
Qed.

Lemma ber_awgn_antitone (s1 s2 : R) :
  s1 <= s2 -> ber_awgn erfc s2 <= ber_awgn erfc s1.
Proof.
  intros H12. unfold ber_awgn.
  pose proof (erfc_antitone _ _ (sqrt_le_1_alt s1 s2 H12)).
  decimals. lra.
Qed.

End Erfc.

(** The last steps of [per] and of [perRF], from the SNR on. *)
Lemma awgn_tail (erfc : R -> R) (snr : R) (psize : Z) :
  0 <= snr -> (0 <= psize)%Z ->
  (r <- Py.sqrt snr ;;
   w <- Py.ipow (1.0 - 0.5 * erfc r) (8 * psize) ;;
   Ok (1.0 - w))
  = Ok (packet_error (ber_awgn erfc snr) psize).
Proof.
  intros Hs Hp. rewrite sqrt_ok by assumption. cbn [bind].
  rewrite ipow_ok by lia. cbn [bind].
  unfold packet_error, ber_awgn. f_equal. f_equal; [lra | ].
  f_equal. lra.
Qed.

Lemma rayleigh_tail (snr : R) (psize : Z) :
  0 <= snr -> (0 <= psize)%Z ->
  (ratio <- Py.div snr (1 + snr) ;;
   r <- Py.sqrt ratio ;;
   w <- Py.ipow (1.0 - 0.5 * (1 - r)) (8 * psize) ;;
   Ok (1.0 - w))
  = Ok (packet_error (ber_rayleigh snr) psize).
Proof.
  intros Hs Hp. rewrite div_ok by lra. cbn [bind].
  rewrite sqrt_ok by (apply ratio_range; assumption). cbn [bind].
  rewrite ipow_ok by lia. cbn [bind].
  unfold packet_error, ber_rayleigh. f_equal. f_equal; [lra | ].
  f_equal. lra.
Qed.

(** ** The acoustic channel on its domain *)

Lemma ln_10_pos : 0 < ln 10.
Proof. rewrite <- ln_1. apply ln_increasing; lra. Qed.

Lemma fpow_pos (b y : R) : 0 < Py.fpow b y.
Proof. unfold Py.fpow, Rpower. apply exp_pos. Qed.

Lemma fpow_10_monotone (x y : R) : x <= y -> Py.fpow 10 x <= Py.fpow 10 y.
Proof. intros H. unfold Py.fpow. apply Rle_Rpower; lra. Qed.

Lemma thorp_positive (frequency : R) :
  0 < frequency ->
  exists t : R, AcousticChannel.thorp frequency = Ok t /\ 0 < t.
Proof.
  intros Hf.
  assert (Hsq : 0 < frequency ^ 2) by (apply pow_lt; assumption).
  assert (Ha : 0 < frequency ^ 2 / (1 + frequency ^ 2))
    by (apply Rdiv_lt_0_compat; lra).
  assert (Ha' : 0.11 * frequency ^ 2 / (1 + frequency ^ 2)
                = 0.11 * (frequency ^ 2 / (1 + frequency ^ 2)))
    by (unfold Rdiv; ring).
  destruct (Rlt_dec 0.4 (frequency ^ 2)) as [Hhi | Hlo].
  - eexists. split.
    + apply (proj1 (thorp_two_branches_aux frequency)); [assumption | lra].
    + assert (Hb : 0 < frequency ^ 2 / (4100 + frequency))
        by (apply Rdiv_lt_0_compat; lra).
      assert (Hb' : 44 * frequency ^ 2 / (4100 + frequency)
                    = 44 * (frequency ^ 2 / (4100 + frequency)))
        by (unfold Rdiv; ring).
      rewrite Ha', Hb'. revert Ha Hb Hsq. decimals. intros. lra.
  - eexists. split.
    + apply (proj2 (thorp_two_branches_aux frequency)). lra.
    + rewrite Ha'. revert Ha Hsq. decimals. intros. lra.
Qed.

Lemma pathloss_ok (self : AcousticChannel) (distance frequency t : R) :
  0 < distance -> AcousticChannel.thorp frequency = Ok t ->
  AcousticChannel.pathloss self distance frequency
  = Ok (10.0 * ac_k self * (ln distance / ln 10) + distance * t).
Proof.
  intros Hd Ht. unfold AcousticChannel.pathloss.
  rewrite log10_ok by assumption. cbn [bind]. rewrite Ht. reflexivity.
Qed.

Lemma noise_defined (self : AcousticChannel) (frequency : R) :
  0 < frequency -> 0 <= ac_w self ->
  exists n : R, AcousticChannel.noise self frequency = Ok n.
Proof.
  intros Hf Hw. unfold AcousticChannel.noise.
  assert (H3 : 0 < frequency + 0.03) by lra.
  assert (H4 : 0 < frequency + 0.4) by lra.
  rewrite (log10_ok frequency) by assumption. cbn [bind].
  rewrite (log10_ok (frequency + 0.03)) by assumption. cbn [bind].
  rewrite sqrt_ok by assumption. cbn [bind].
  rewrite (log10_ok (frequency + 0.4)) by assumption. cbn [bind].
  rewrite log10_ok; [cbn [bind]; eexists; reflexivity | ].
  repeat apply Rplus_lt_0_compat; apply fpow_pos.
Qed.

Lemma pathloss_monotone (self : AcousticChannel) (d1 d2 t : R) :
  0 <= ac_k self -> 0 <= t -> 0 < d1 -> d1 <= d2 ->
  10.0 * ac_k self * (ln d1 / ln 10) + d1 * t
  <= 10.0 * ac_k self * (ln d2 / ln 10) + d2 * t.
Proof.
  intros Hk Ht Hd1 Hd12.
  assert (Hln : ln d1 <= ln d2).
  { destruct Hd12 as [Hlt | ->]; [left; apply ln_increasing; assumption | lra]. }
  pose proof ln_10_pos as H10.
  assert (ln d1 / ln 10 <= ln d2 / ln 10).
  { unfold Rdiv. apply Rmult_le_compat_r; [ | assumption].
    left. apply Rinv_0_lt_compat. assumption. }
  assert (d1 * t <= d2 * t) by (apply Rmult_le_compat_r; assumption).
  assert (10.0 * ac_k self * (ln d1 / ln 10)
          <= 10.0 * ac_k self * (ln d2 / ln 10)).
  { apply Rmult_le_compat_l; [ | assumption].
    apply Rmult_le_pos; [lra | assumption]. }
  lra.
Qed.

Lemma init_inv (k s w : R) (self : AcousticChannel) :
  AcousticChannel.init k s w = Ok self ->
  self = mkAcoustic k s w
  /\ (k = 1.0 \/ k = 1.5 \/ k = 2.0) /\ 0 <= s <= 1 /\ 0 <= w.
Proof.
  unfold AcousticChannel.init.
  destruct (Py.mem k AcousticChannel.kvalues) eqn:Ek; cbn [negb]; [ | discriminate].
  destruct (Py.le 0 s) eqn:E1; cbn [negb andb]; [ | discriminate].
  destruct (Py.le s 1) eqn:E2; cbn [negb]; [ | discriminate].
  destruct (Py.le 0 w) eqn:E3; cbn [negb]; [ | discriminate].
  intros H. injection H as <-.
  apply mem_kvalues in Ek. apply le_true in E1, E2, E3. tauto.
Qed.

Lemma constructed_k_w (k s w : R) (self : AcousticChannel) :
  AcousticChannel.init k s w = Ok self -> 0 < ac_k self /\ 0 <= ac_w self.
Proof.
  intros H. apply init_inv in H as (-> & Hk & _ & Hw). cbn [ac_k ac_w].
  split; [ | assumption].
  revert Hk. decimals. intros [-> | [-> | ->]]; lra.
Qed.

Lemma acoustic_snr_pos (Pt pl noise_bw n : R) : 0 < acoustic_snr Pt pl noise_bw n.
Proof. apply fpow_pos. Qed.

Lemma acoustic_snr_antitone (Pt pl1 pl2 noise_bw n : R) :
  pl1 <= pl2 -> acoustic_snr Pt pl2 noise_bw n <= acoustic_snr Pt pl1 noise_bw n.
Proof. intros H. apply fpow_10_monotone. lra. Qed.

Lemma acoustic_per_value erfc self distance frequency Pt psize noise_bw pl n :
  AcousticChannel.pathloss self distance frequency = Ok pl ->
  AcousticChannel.noise self frequency = Ok n ->
  (0 <= psize)%Z ->
  AcousticChannel.per erfc self distance frequency Pt psize noise_bw
  = Ok (packet_error (ber_awgn erfc (acoustic_snr Pt pl noise_bw n)) psize).
Proof.
  intros Hpl Hn Hp. unfold AcousticChannel.per.
  rewrite Hpl, Hn. cbn [bind].
  apply awgn_tail; [left; apply fpow_pos | assumption].
Qed.

Lemma acoustic_perRF_value self distance frequency Pt psize noise_bw pl n :
  AcousticChannel.pathloss self distance frequency = Ok pl ->
  AcousticChannel.noise self frequency = Ok n ->
  (0 <= psize)%Z ->
  AcousticChannel.perRF self distance frequency Pt psize noise_bw
  = Ok (packet_error (ber_rayleigh (acoustic_snr Pt pl noise_bw n)) psize).
Proof.
  intros Hpl Hn Hp. unfold AcousticChannel.perRF.
  rewrite Hpl, Hn. cbn [bind].
  apply rayleigh_tail; [left; apply fpow_pos | assumption].
Qed.

(** On a positive distance and a positive frequency the path loss and the
    noise are defined. *)
Lemma acoustic_domain (self : AcousticChannel) (distance frequency : R) :
  0 <= ac_w self -> 0 < distance -> 0 < frequency ->
  exists t n : R,
    0 < t
    /\ AcousticChannel.pathloss self distance frequency
       = Ok (10.0 * ac_k self * (ln distance / ln 10) + distance * t)
    /\ AcousticChannel.noise self frequency = Ok n.
Proof.
  intros Hw Hd Hf.
  destruct (thorp_positive frequency Hf) as (t & Ht & Hpos).
  destruct (noise_defined self frequency Hf Hw) as (n & Hn).
  exists t, n. split; [assumption | ].
  split; [apply pathloss_ok; assumption | assumption].
Qed.

Section AcousticErrorRates.

Variable erfc : R -> R.
Hypothesis erfc_range : forall x : R, 0 <= erfc x <= 2.
Hypothesis erfc_antitone : forall x y : R, x <= y -> erfc y <= erfc x.

Variable self : AcousticChannel.
Hypothesis k_pos : 0 < ac_k self.
Hypothesis w_nonneg : 0 <= ac_w self.

Variables frequency Pt noise_bw : R.
Hypothesis frequency_pos : 0 < frequency.

Lemma acoustic_per_range (distance : R) (psize : Z) :
  0 < distance -> (0 <= psize)%Z ->
  in_unit_interval
    (AcousticChannel.per erfc self distance frequency Pt psize noise_bw).
Proof.
  intros Hd Hp.
  destruct (acoustic_domain self distance frequency w_nonneg Hd frequency_pos)
    as (t & n & _ & Hpl & Hn).
  eexists. split; [apply (acoustic_per_value _ _ _ _ _ _ _ _ _ Hpl Hn Hp) | ].
  apply packet_error_range, ber_awgn_range, erfc_range.
Qed.

Lemma acoustic_perRF_range (distance : R) (psize : Z) :
  0 < distance -> (0 <= psize)%Z ->
  in_unit_interval
    (AcousticChannel.perRF self distance frequency Pt psize noise_bw).
Proof.
  intros Hd Hp.
  destruct (acoustic_domain self distance frequency w_nonneg Hd frequency_pos)
    as (t & n & _ & Hpl & Hn).
  eexists. split; [apply (acoustic_perRF_value _ _ _ _ _ _ _ _ Hpl Hn Hp) | ].
  apply packet_error_range, ber_rayleigh_range. left. apply acoustic_snr_pos.
Qed.

Lemma acoustic_snr_distance (d1 d2 : R) :
  0 < d1 -> d1 <= d2 ->
  exists pl1 pl2 n : R,
    AcousticChannel.pathloss self d1 frequency = Ok pl1
    /\ AcousticChannel.pathloss self d2 frequency = Ok pl2
    /\ AcousticChannel.noise self frequency = Ok n
    /\ acoustic_snr Pt pl2 noise_bw n <= acoustic_snr Pt pl1 noise_bw n.
Proof.
  intros Hd1 Hd12.
  destruct (thorp_positive frequency frequency_pos) as (t & Ht & Hpos).
  destruct (noise_defined self frequency frequency_pos w_nonneg) as (n & Hn).
  do 3 eexists. split; [apply pathloss_ok; [assumption | exact Ht] | ].
  split; [apply pathloss_ok; [lra | exact Ht] | ].
  split; [exact Hn | ].
  apply acoustic_snr_antitone, pathloss_monotone; try assumption; lra.
Qed.

Lemma acoustic_per_distance (d1 d2 : R) (psize : Z) :
  0 < d1 -> d1 <= d2 -> (0 <= psize)%Z ->
  both_le (AcousticChannel.per erfc self d1 frequency Pt psize noise_bw)
          (AcousticChannel.per erfc self d2 frequency Pt psize noise_bw).
Proof.
  intros Hd1 Hd12 Hp.
  destruct (acoustic_snr_distance d1 d2 Hd1 Hd12)
    as (pl1 & pl2 & n & H1 & H2 & Hn & Hsnr).
  do 2 eexists.
  split; [apply (acoustic_per_value _ _ _ _ _ _ _ _ _ H1 Hn Hp) | ].
  split; [apply (acoustic_per_value _ _ _ _ _ _ _ _ _ H2 Hn Hp) | ].
  apply packet_error_mono_ber.
  - apply ber_awgn_antitone; assumption.
  - apply ber_awgn_range, erfc_range.
Qed.

Lemma acoustic_perRF_distance (d1 d2 : R) (psize : Z) :
  0 < d1 -> d1 <= d2 -> (0 <= psize)%Z ->
  both_le (AcousticChannel.perRF self d1 frequency Pt psize noise_bw)
          (AcousticChannel.perRF self d2 frequency Pt psize noise_bw).
Proof.
  intros Hd1 Hd12 Hp.
  destruct (acoustic_snr_distance d1 d2 Hd1 Hd12)
    as (pl1 & pl2 & n & H1 & H2 & Hn & Hsnr).
  do 2 eexists.
  split; [apply (acoustic_perRF_value _ _ _ _ _ _ _ _ H1 Hn Hp) | ].
  split; [apply (acoustic_perRF_value _ _ _ _ _ _ _ _ H2 Hn Hp) | ].
  apply packet_error_mono_ber.
  - apply ber_rayleigh_antitone; [left; apply acoustic_snr_pos | assumption].
  - apply ber_rayleigh_range. left. apply acoustic_snr_pos.
Qed.

Lemma acoustic_per_psize (distance : R) (n m : Z) :
  0 < distance -> (0 <= n <= m)%Z ->
  both_le (AcousticChannel.per erfc self distance frequency Pt n noise_bw)
          (AcousticChannel.per erfc self distance frequency Pt m noise_bw).
Proof.
  intros Hd Hnm.
  destruct (acoustic_domain self distance frequency w_nonneg Hd frequency_pos)
    as (t & nz & _ & Hpl & Hn).
  do 2 eexists.
  split; [apply (acoustic_per_value _ _ _ _ _ _ _ _ _ Hpl Hn); lia | ].
  split; [apply (acoustic_per_value _ _ _ _ _ _ _ _ _ Hpl Hn); lia | ].
  apply packet_error_mono_psize; [ | assumption].
  apply ber_awgn_range, erfc_range.
Qed.

Lemma acoustic_perRF_psize (distance : R) (n m : Z) :
  0 < distance -> (0 <= n <= m)%Z ->
  both_le (AcousticChannel.perRF self distance frequency Pt n noise_bw)
          (AcousticChannel.perRF self distance frequency Pt m noise_bw).
Proof.
  intros Hd Hnm.
  destruct (acoustic_domain self distance frequency w_nonneg Hd frequency_pos)
    as (t & nz & _ & Hpl & Hn).
  do 2 eexists.
  split; [apply (acoustic_perRF_value _ _ _ _ _ _ _ _ Hpl Hn); lia | ].
  split; [apply (acoustic_perRF_value _ _ _ _ _ _ _ _ Hpl Hn); lia | ].
  apply packet_error_mono_psize; [ | assumption].
  apply ber_rayleigh_range. left. apply acoustic_snr_pos.
Qed.

End AcousticErrorRates.

(** ** The optical channel on physical parameters *)

Lemma physical_photodiode : physical photodiode.
Proof.
  unfold physical, photodiode; cbn. decimals. repeat split; lra.
Qed.

Lemma physical_noise (self : OpticalChannel) :
  physical self -> 0 < oc_R self /\ 0 < currentNoise self + thermalNoise self.
Proof.
  intros (HT & HR & Hbw & HId & HIl & _). split; [assumption | ].
  unfold currentNoise, thermalNoise, OpticalChannel.q, OpticalChannel.K.
  assert (0 <= 2 * 1.6e-19 * (oc_Id self + oc_Il self) * oc_bw self).
  { apply Rmult_le_pos; [ | lra]. apply Rmult_le_pos; [decimals; lra | lra]. }
  assert (0 < 4 * 1.38e-23 * oc_T self * oc_bw self / oc_R self).
  { apply Rdiv_lt_0_compat; [ | assumption].
    apply Rmult_lt_0_compat; [ | assumption].
    apply Rmult_lt_0_compat; [decimals; lra | assumption]. }
  lra.
Qed.

Lemma physical_spread (self : OpticalChannel) (distance : R) :
  physical self -> 0 < distance -> 0 < beam_spread self distance.
Proof.
  intros (_ & _ & _ & _ & _ & HAt & Hor) Hd. unfold beam_spread.
  pose proof (COS_bound (oc_theta self)) as [_ Hc].
  pose proof PI_RGT_0 as Hpi.
  assert (Hsq : 0 < distance ^ 2) by (apply pow_lt; assumption).
  assert (Hpd : 0 < PI * distance ^ 2) by (apply Rmult_lt_0_compat; assumption).
  destruct Hor as [Hpos | Hcos].
  - assert (0 <= PI * distance ^ 2 * (1 - cos (oc_theta self)))
      by (apply Rmult_le_pos; lra).
    lra.
  - assert (0 < PI * distance ^ 2 * (1 - cos (oc_theta self)))
      by (apply Rmult_lt_0_compat; lra).
    lra.
Qed.

Lemma spread_monotone (self : OpticalChannel) (d1 d2 : R) :
  0 < d1 -> d1 <= d2 -> beam_spread self d1 <= beam_spread self d2.
Proof.
  intros Hd1 Hd12. unfold beam_spread.
  pose proof (COS_bound (oc_theta self)) as [_ Hc].
  pose proof PI_RGT_0 as Hpi.
  assert (d1 ^ 2 <= d2 ^ 2) by (apply pow_incr; lra).
  assert (PI * d1 ^ 2 <= PI * d2 ^ 2) by (apply Rmult_le_compat_l; lra).
  assert (PI * d1 ^ 2 * (1 - cos (oc_theta self))
          <= PI * d2 ^ 2 * (1 - cos (oc_theta self)))
    by (apply Rmult_le_compat_r; lra).
  lra.
Qed.

Lemma linear_snr_nonneg (self : OpticalChannel) (P distance d beta : R) :
  0 < currentNoise self + thermalNoise self ->
  0 <= linear_snr self P distance d beta.
Proof.
  intros HN. unfold linear_snr, Rdiv.
  apply Rmult_le_pos; [apply pow2_ge_0 | ].
  left. apply Rinv_0_lt_compat. assumption.
Qed.

Lemma linear_snr_antitone (self : OpticalChannel) (P d1 d2 d beta : R) :
  physical self -> 0 < d1 -> d1 <= d2 ->
  linear_snr self P d2 d beta <= linear_snr self P d1 d beta.
Proof.
  intros Hph Hd1 Hd12.
  pose proof (physical_noise self Hph) as [_ HN].
  pose proof (physical_spread self d1 Hph Hd1) as HD1.
  pose proof (spread_monotone self d1 d2 Hd1 Hd12) as HD12.
  unfold linear_snr, received_power.
  set (A := 2 * P * oc_Ar self * cos beta).
  set (E := exp (- oc_c self * d)).
  set (D1 := beam_spread self d1) in *.
  set (D2 := beam_spread self d2) in *.
  assert (Hinv : 0 < / D2 <= / D1).
  { split; [apply Rinv_0_lt_compat; lra | apply Rinv_le_contravar; lra]. }
  replace ((oc_S self * (A / D2 * E)) ^ 2)
    with ((oc_S self * A * E) ^ 2 * (/ D2) ^ 2) by (unfold Rdiv; ring).
  replace ((oc_S self * (A / D1 * E)) ^ 2)
    with ((oc_S self * A * E) ^ 2 * (/ D1) ^ 2) by (unfold Rdiv; ring).
  unfold Rdiv. apply Rmult_le_compat_r.
  - left. apply Rinv_0_lt_compat. assumption.
  - apply Rmult_le_compat_l; [apply pow2_ge_0 | ].
    apply pow_incr. lra.
Qed.

Lemma optical_snr_defined (self : OpticalChannel) (P distance d beta : R) :
  physical self -> 0 < distance ->
  OpticalChannel.snr self P distance d beta
  = Ok (linear_snr self P distance d beta)
  /\ 0 <= linear_snr self P distance d beta.
Proof.
  intros Hph Hd.
  pose proof (physical_noise self Hph) as [HR HN].
  pose proof (physical_spread self distance Hph Hd) as HD.
  split; [apply snr_ok; lra | apply linear_snr_nonneg; assumption].
Qed.

Lemma optical_per_value erfc self P distance d beta psize s :
  OpticalChannel.snr self P distance d beta = Ok s ->
  0 <= s -> (0 <= psize)%Z ->
  OpticalChannel.per erfc self P distance d beta psize
  = Ok (packet_error (ber_awgn erfc s) psize).
Proof.
  intros Hs Hpos Hp. rewrite optical_per_inline. unfold per_of_snr.
  rewrite Hs. cbn [bind]. apply awgn_tail; assumption.
Qed.

Lemma optical_perRF_value self P distance d beta psize s :
  OpticalChannel.snr self P distance d beta = Ok s ->
  0 <= s -> (0 <= psize)%Z ->
  OpticalChannel.perRF self P distance d beta psize
  = Ok (packet_error (ber_rayleigh s) psize).
Proof.
  intros Hs Hpos Hp. rewrite optical_perRF_inline. unfold perRF_of_snr.
  rewrite Hs. cbn [bind]. apply rayleigh_tail; assumption.
Qed.

Lemma logistic_erfc_range (x : R) : 0 <= logistic_erfc x <= 2.
Proof.
  unfold logistic_erfc. pose proof (exp_pos x) as He.
  assert (Hi : 0 < / (1 + exp x) <= / 1).
  { split; [apply Rinv_0_lt_compat; lra | apply Rinv_le_contravar; lra]. }
  rewrite Rinv_1 in Hi. unfold Rdiv. lra.
Qed.

Lemma logistic_erfc_antitone (x y : R) :
  x <= y -> logistic_erfc y <= logistic_erfc x.
Proof.
  intros Hxy. unfold logistic_erfc.
  pose proof (exp_pos x) as He.
  assert (exp x <= exp y).
  { destruct Hxy as [Hlt | ->]; [left; apply exp_increasing; assumption | lra]. }
  assert (/ (1 + exp y) <= / (1 + exp x)) by (apply Rinv_le_contravar; lra).
  unfold Rdiv. lra.
Qed.

(** ** Range of the packet error rate *)

(** C5: on a constructed acoustic channel, a positive distance and a
    positive frequency (where the SNR is defined, and positive), and on any
    optical channel and arguments whose SNR is defined and not negative,
    with a packet size that is not negative, [per] and [perRF] return a
    value of the closed interval [0,1].  [erfc] takes its values between 0
    and 2. *)
Theorem per_in_unit_interval (erfc : R -> R) :
  (forall x : R, 0 <= erfc x <= 2) ->
  (forall k s w self distance frequency Pt psize noise_bw,
      AcousticChannel.init k s w = Ok self ->
      0 < distance -> 0 < frequency -> (0 <= psize)%Z ->
      in_unit_interval
        (AcousticChannel.per erfc self distance frequency Pt psize noise_bw)
      /\ in_unit_interval
           (AcousticChannel.perRF self distance frequency Pt psize noise_bw))
  /\ (forall self P distance d beta psize snr,
         OpticalChannel.snr self P distance d beta = Ok snr ->
         0 <= snr -> (0 <= psize)%Z ->
         in_unit_interval (OpticalChannel.per erfc self P distance d beta psize)
         /\ in_unit_interval (OpticalChannel.perRF self P distance d beta psize)).
Proof.
  intros Hrange. split.
  - intros k s w self distance frequency Pt psize noise_bw Hinit Hd Hf Hp.
    destruct (constructed_k_w k s w self Hinit) as [_ Hw].
    split.
    + apply acoustic_per_range; assumption.
    + apply acoustic_perRF_range; assumption.
  - intros self P distance d beta psize snr Hs Hpos Hp. split.
    + eexists. split; [apply (optical_per_value erfc _ _ _ _ _ _ _ Hs Hpos Hp) | ].
      apply packet_error_range, ber_awgn_range, Hrange.
    + eexists. split; [apply (optical_perRF_value _ _ _ _ _ _ _ Hs Hpos Hp) | ].
      apply packet_error_range, ber_rayleigh_range, Hpos.
Qed.

Lemma stojanovic_constructed :
  AcousticChannel.init 2.0 0.5 0 = Ok stojanovic.
Proof.
  unfold AcousticChannel.init.
  assert (Hk : Py.mem 2.0 AcousticChannel.kvalues = true)
    by (apply mem_kvalues; auto).
  assert (H1 : Py.le 0 0.5 = true) by (apply le_true; lra).
  assert (H2 : Py.le 0.5 1 = true) by (apply le_true; lra).
  assert (H3 : Py.le 0 0 = true) by (apply le_true; lra).
  rewrite Hk, H1, H2, H3. reflexivity.
Qed.

Lemma photodiode_snr :
  OpticalChannel.snr photodiode 1 5 5 0 = Ok (linear_snr photodiode 1 5 5 0)
  /\ 0 <= linear_snr photodiode 1 5 5 0.
Proof. apply optical_snr_defined; [exact physical_photodiode | lra]. Qed.

Lemma per_in_unit_interval_witness :
  (in_unit_interval
     (AcousticChannel.per logistic_erfc stojanovic 1000 10 100 10 2.35)
   /\ in_unit_interval (AcousticChannel.perRF stojanovic 1000 10 100 10 2.35))
  /\ (in_unit_interval (OpticalChannel.per logistic_erfc photodiode 1 5 5 0 10)
      /\ in_unit_interval (OpticalChannel.perRF photodiode 1 5 5 0 10)).
Proof.
  split.
  - apply (proj1 (per_in_unit_interval logistic_erfc logistic_erfc_range)
             2.0 0.5 0 stojanovic 1000 10 100 10%Z 2.35);
      [exact stojanovic_constructed | lra | lra | lia].
  - apply (proj2 (per_in_unit_interval logistic_erfc logistic_erfc_range)
             photodiode 1 5 5 0 10%Z (linear_snr photodiode 1 5 5 0));
      [apply photodiode_snr | apply photodiode_snr | lia].
Defined.

(** ** The optical SNR over the distances *)

Lemma squared_inverse_antitone (a b : R) :
  0 < a -> a <= b -> (/ b) ^ 2 <= (/ a) ^ 2.
Proof.
  intros Ha Hab. apply pow_incr. split.
  - left. apply Rinv_0_lt_compat. lra.
  - apply Rinv_le_contravar; assumption.
Qed.

Lemma linear_snr_factors (self : OpticalChannel) (P distance d beta : R) :
  linear_snr self P distance d beta
  = (oc_S self * (2 * P * oc_Ar self * cos beta) * exp (- oc_c self * d)) ^ 2
    * (/ beam_spread self distance) ^ 2
    * / (currentNoise self + thermalNoise self).
Proof. unfold linear_snr, received_power, Rdiv. ring. Qed.

Lemma spread_nonneg (self : OpticalChannel) (distance : R) :
  0 <= oc_At self -> 0 <= beam_spread self distance.
Proof.
  intros HAt. unfold beam_spread.
  pose proof (COS_bound (oc_theta self)) as [_ Hc].
  pose proof PI_RGT_0 as Hpi.
  assert (0 <= PI * distance ^ 2 * (1 - cos (oc_theta self))).
  { apply Rmult_le_pos; [ | lra].
    apply Rmult_le_pos; [lra | apply pow2_ge_0]. }
  lra.
Qed.

(** With a transmitter area that is not negative, a SNR that is defined at
    two distances and not negative at the nearer one is not larger, and not
    negative, at the farther one. *)
Lemma optical_snr_distance (self : OpticalChannel) (P d1 d2 d beta s1 s2 : R) :
  0 <= oc_At self -> 0 < d1 -> d1 <= d2 ->
  OpticalChannel.snr self P d1 d beta = Ok s1 ->
  OpticalChannel.snr self P d2 d beta = Ok s2 ->
  0 <= s1 ->
  0 <= s2 /\ s2 <= s1.
Proof.
  intros HAt Hd1 Hd12 H1 H2 Hpos.
  apply snr_inv in H1 as (HD1 & _ & HN & ->).
  apply snr_inv in H2 as (HD2 & _ & _ & ->).
  pose proof (spread_nonneg self d1 HAt) as HD1'.
  pose proof (spread_monotone self d1 d2 Hd1 Hd12) as HD12.
  assert (HD1pos : 0 < beam_spread self d1) by lra.
  pose proof (squared_inverse_antitone _ _ HD1pos HD12) as Hu.
  assert (Hu1 : 0 < (/ beam_spread self d1) ^ 2).
  { apply pow_lt. apply Rinv_0_lt_compat. assumption. }
  assert (Hu2 : 0 < (/ beam_spread self d2) ^ 2).
  { apply pow_lt. apply Rinv_0_lt_compat. lra. }
  rewrite linear_snr_factors in Hpos. rewrite !linear_snr_factors.
  set (C := (oc_S self * (2 * P * oc_Ar self * cos beta)
             * exp (- oc_c self * d)) ^ 2) in *.
  assert (HC : 0 <= C) by (unfold C; apply pow2_ge_0).
  set (u1 := (/ beam_spread self d1) ^ 2) in *.
  set (u2 := (/ beam_spread self d2) ^ 2) in *.
  set (N := currentNoise self + thermalNoise self) in *.
  destruct (Rlt_dec 0 N) as [HNpos | HNneg].
  - assert (Hn : 0 < / N) by (apply Rinv_0_lt_compat; assumption).
    assert (0 <= C * u2) by (apply Rmult_le_pos; lra).
    assert (C * u2 <= C * u1) by (apply Rmult_le_compat_l; assumption).
    split.
    + apply Rmult_le_pos; lra.
    + apply Rmult_le_compat_r; lra.
  - assert (HNlt : N < 0) by lra.
    assert (Hn : / N < 0) by (apply Rinv_lt_0_compat; assumption).
    assert (HCu : 0 <= C * u1) by (apply Rmult_le_pos; lra).
    assert (HC0 : C = 0).
    { destruct (Req_dec_T C 0) as [E | E]; [assumption | exfalso].
      assert (0 < C) by lra.
      assert (0 < C * u1) by (apply Rmult_lt_0_compat; assumption).
      assert (C * u1 * / N < 0) by nra.
      lra. }
    rewrite HC0. split; lra.
Qed.

Lemma pow_strict (x y : R) (n : nat) :
  0 <= x -> x < y -> x ^ S n < y ^ S n.
Proof.
  intros Hx Hxy. induction n as [ | n IH].
  - simpl. lra.
  - change (x ^ S (S n)) with (x * x ^ S n).
    change (y ^ S (S n)) with (y * y ^ S n).
    assert (0 <= x ^ S n) by (apply pow_le; assumption).
    nra.
Qed.

Lemma ratio_strict (s1 s2 : R) :
  0 <= s1 -> s1 < s2 -> s1 / (1 + s1) < s2 / (1 + s2).
Proof.
  intros H1 H12.
  replace (s1 / (1 + s1)) with (1 - / (1 + s1)) by (field; lra).
  replace (s2 / (1 + s2)) with (1 - / (1 + s2)) by (field; lra).
  assert (/ (1 + s2) < / (1 + s1)) by (apply Rinv_lt_contravar; nra).
  lra.
Qed.

Lemma packet_error_rayleigh_strict (s1 s2 : R) :
  0 <= s1 -> s1 < s2 ->
  packet_error (ber_rayleigh s2) 1 < packet_error (ber_rayleigh s1) 1.
Proof.
  intros H1 H12.
  assert (H2 : 0 <= s2) by lra.
  pose proof (ber_rayleigh_range s1 H1) as Hr1.
  pose proof (ratio_range s1 H1) as [Hq1 _].
  pose proof (ratio_strict s1 s2 H1 H12) as Hq.
  assert (Hsq : sqrt (s1 / (1 + s1)) < sqrt (s2 / (1 + s2)))
    by (apply sqrt_lt_1_alt; lra).
  assert (Hb : ber_rayleigh s2 < ber_rayleigh s1)
    by (unfold ber_rayleigh; decimals; lra).
  unfold packet_error.
  change (Z.to_nat (8 * 1)) with 8%nat.
  assert (Hx : 0 <= 1 - ber_rayleigh s1) by lra.
  assert (Hlt : 1 - ber_rayleigh s1 < 1 - ber_rayleigh s2) by lra.
  pose proof (pow_strict _ _ 7 Hx Hlt). lra.
Qed.

Lemma negative_area_noise :
  currentNoise negative_area + thermalNoise negative_area = 2.
Proof.
  unfold currentNoise, thermalNoise, OpticalChannel.q, OpticalChannel.K.
  cbn [oc_Id oc_Il oc_bw oc_T oc_R negative_area]. decimals. field.
Qed.

Lemma negative_area_spread (distance : R) :
  beam_spread negative_area distance = 2 * PI * distance ^ 2 - 20.
Proof.
  unfold beam_spread. cbn [oc_theta oc_At negative_area].
  rewrite cos_PI. ring.
Qed.

Lemma negative_area_snr (distance : R) :
  2 * PI * distance ^ 2 - 20 <> 0 ->
  OpticalChannel.snr negative_area 1 distance 0 0
  = Ok (2 * (/ (2 * PI * distance ^ 2 - 20)) ^ 2).
Proof.
  intros HD. rewrite snr_ok.
  - f_equal. rewrite linear_snr_factors, negative_area_spread,
      negative_area_noise.
    cbn [oc_S oc_Ar oc_c negative_area].
    rewrite cos_0. replace (- 0 * 0) with 0 by ring. rewrite exp_0.
    field. assumption.
  - rewrite negative_area_spread. assumption.
  - cbn [oc_R negative_area]. decimals. lra.
  - rewrite negative_area_noise. lra.
Qed.

(** C4, counterexample: an optical channel whose transmitter area is
    negative, [At = -10], is constructed like any other.  With [P = 1],
    [d = 0], [beta = 0] and a packet of one byte, [perRF] at distance 1.5 is
    strictly below [perRF] at distance 1 (about 0.979 against 0.9915): the
    error rate falls when the distance grows. *)
Lemma perRF_falls_with_distance :
  exists v1 v2 : R,
    OpticalChannel.perRF negative_area 1 1 0 0 1 = Ok v1
    /\ OpticalChannel.perRF negative_area 1 1.5 0 0 1 = Ok v2
    /\ v2 < v1.
Proof.
  pose proof PI_RGT_0 as Hpi0. pose proof PI_4 as Hpi4.
  assert (E1 : 2 * PI * 1 ^ 2 - 20 = 2 * PI - 20) by ring.
  assert (E2 : 2 * PI * 1.5 ^ 2 - 20 = 4.5 * PI - 20) by (decimals; field).
  assert (HD1 : 2 * PI * 1 ^ 2 - 20 <> 0) by (rewrite E1; lra).
  assert (HD2 : 2 * PI * 1.5 ^ 2 - 20 <> 0) by (rewrite E2; decimals; lra).
  pose proof (negative_area_snr 1 HD1) as Hs1.
  pose proof (negative_area_snr 1.5 HD2) as Hs2.
  rewrite E1 in Hs1. rewrite E2 in Hs2.
  set (a := - (4.5 * PI - 20)).
  set (b := - (2 * PI - 20)).
  assert (Ha : 0 < a) by (unfold a; decimals; lra).
  assert (Hab : a < b) by (unfold a, b; decimals; lra).
  assert (Hinv : / b < / a) by (apply Rinv_lt_contravar; nra).
  assert (Hib : 0 < / b) by (apply Rinv_0_lt_compat; lra).
  assert (Hsq : (/ b) ^ 2 < (/ a) ^ 2).
  { apply (pow_strict (/ b) (/ a) 1); lra. }
  assert (Eb : (/ (2 * PI - 20)) ^ 2 = (/ b) ^ 2).
  { unfold b. field. lra. }
  assert (Ea : (/ (4.5 * PI - 20)) ^ 2 = (/ a) ^ 2).
  { unfold a. field. decimals. lra. }
  rewrite Eb in Hs1. rewrite Ea in Hs2.
  assert (Hpos1 : 0 <= 2 * (/ b) ^ 2) by (pose proof (pow2_ge_0 (/ b)); lra).
  assert (Hpos2 : 0 <= 2 * (/ a) ^ 2) by (pose proof (pow2_ge_0 (/ a)); lra).
  assert (Hp : (0 <= 1)%Z) by lia.
  do 2 eexists.
  split; [apply (optical_perRF_value _ _ _ _ _ _ _ Hs1 Hpos1 Hp) | ].
  split; [apply (optical_perRF_value _ _ _ _ _ _ _ Hs2 Hpos2 Hp) | ].
  apply packet_error_rayleigh_strict; lra.
Qed.

(** ** Monotonicity of the packet error rate *)

(** C4, amended: with the other arguments fixed, [per] and [perRF] do not
    decrease when the distance grows over the positive distances, and do not
    decrease when the packet size grows over the non-negative integers: on
    every constructed acoustic channel at a positive frequency, and on every
    optical channel wherever the SNR is defined and not negative, for the
    distance provided the transmitter area [At] is not negative.  [erfc]
    takes its values between 0 and 2 and does not increase. *)
Theorem per_monotone (erfc : R -> R) :
  (forall x : R, 0 <= erfc x <= 2) ->
  (forall x y : R, x <= y -> erfc y <= erfc x) ->
  (forall k s w self frequency Pt noise_bw,
      AcousticChannel.init k s w = Ok self -> 0 < frequency ->
      (forall d1 d2 psize, 0 < d1 -> d1 <= d2 -> (0 <= psize)%Z ->
         both_le (AcousticChannel.per erfc self d1 frequency Pt psize noise_bw)
                 (AcousticChannel.per erfc self d2 frequency Pt psize noise_bw)
         /\ both_le (AcousticChannel.perRF self d1 frequency Pt psize noise_bw)
                    (AcousticChannel.perRF self d2 frequency Pt psize noise_bw))
      /\ (forall distance n m, 0 < distance -> (0 <= n <= m)%Z ->
            both_le (AcousticChannel.per erfc self distance frequency Pt n noise_bw)
                    (AcousticChannel.per erfc self distance frequency Pt m noise_bw)
            /\ both_le (AcousticChannel.perRF self distance frequency Pt n noise_bw)
                       (AcousticChannel.perRF self distance frequency Pt m noise_bw)))
  /\ (forall self P d beta,
         (forall d1 d2 psize s1 s2,
             0 <= oc_At self -> 0 < d1 -> d1 <= d2 -> (0 <= psize)%Z ->
             OpticalChannel.snr self P d1 d beta = Ok s1 ->
             OpticalChannel.snr self P d2 d beta = Ok s2 ->
             0 <= s1 ->
             both_le (OpticalChannel.per erfc self P d1 d beta psize)
                     (OpticalChannel.per erfc self P d2 d beta psize)
             /\ both_le (OpticalChannel.perRF self P d1 d beta psize)
                        (OpticalChannel.perRF self P d2 d beta psize))
         /\ (forall distance n m s,
                OpticalChannel.snr self P distance d beta = Ok s -> 0 <= s ->
                (0 <= n <= m)%Z ->
                both_le (OpticalChannel.per erfc self P distance d beta n)
                        (OpticalChannel.per erfc self P distance d beta m)
                /\ both_le (OpticalChannel.perRF self P distance d beta n)
                           (OpticalChannel.perRF self P distance d beta m))).
Proof.
  intros Hrange Hanti. split.
  - intros k s w self frequency Pt noise_bw Hinit Hf.
    destruct (constructed_k_w k s w self Hinit) as [Hk Hw].
    split.
    + intros d1 d2 psize Hd1 Hd12 Hp. split.
      * apply acoustic_per_distance; assumption.
      * apply acoustic_perRF_distance; assumption.
    + intros distance n m Hd Hnm. split.
      * apply acoustic_per_psize; assumption.
      * apply acoustic_perRF_psize; assumption.
  - intros self P d beta. split.
    + intros d1 d2 psize s1 s2 HAt Hd1 Hd12 Hp Hs1 Hs2 Hpos1.
      destruct (optical_snr_distance self P d1 d2 d beta s1 s2
                  HAt Hd1 Hd12 Hs1 Hs2 Hpos1) as [Hpos2 Hle].
      split.
      * do 2 eexists.
        split; [apply (optical_per_value erfc _ _ _ _ _ _ _ Hs1 Hpos1 Hp) | ].
        split; [apply (optical_per_value erfc _ _ _ _ _ _ _ Hs2 Hpos2 Hp) | ].
        apply packet_error_mono_ber;
          [apply ber_awgn_antitone; assumption | apply ber_awgn_range, Hrange].
      * do 2 eexists.
        split; [apply (optical_perRF_value _ _ _ _ _ _ _ Hs1 Hpos1 Hp) | ].
        split; [apply (optical_perRF_value _ _ _ _ _ _ _ Hs2 Hpos2 Hp) | ].
        apply packet_error_mono_ber;
          [apply ber_rayleigh_antitone; assumption
          | apply ber_rayleigh_range; assumption].
    + intros distance n m s Hs Hpos Hnm.
      assert (Hn : (0 <= n)%Z) by lia. assert (Hm : (0 <= m)%Z) by lia.
      split.
      * do 2 eexists.
        split; [apply (optical_per_value erfc _ _ _ _ _ _ _ Hs Hpos Hn) | ].
        split; [apply (optical_per_value erfc _ _ _ _ _ _ _ Hs Hpos Hm) | ].
        apply packet_error_mono_psize; [apply ber_awgn_range, Hrange | assumption].
      * do 2 eexists.
        split; [apply (optical_perRF_value _ _ _ _ _ _ _ Hs Hpos Hn) | ].
        split; [apply (optical_perRF_value _ _ _ _ _ _ _ Hs Hpos Hm) | ].
        apply packet_error_mono_psize;
          [apply ber_rayleigh_range; assumption | assumption].
Qed.

Lemma photodiode_snr_at (distance : R) :
  0 < distance ->
  OpticalChannel.snr photodiode 1 distance 5 0
  = Ok (linear_snr photodiode 1 distance 5 0)
  /\ 0 <= linear_snr photodiode 1 distance 5 0.
Proof. intros Hd. apply optical_snr_defined; [exact physical_photodiode | lra]. Qed.

Lemma per_monotone_witness :
  (both_le (AcousticChannel.per logistic_erfc stojanovic 100 10 100 10 2.35)
           (AcousticChannel.per logistic_erfc stojanovic 1000 10 100 10 2.35)
   /\ both_le (AcousticChannel.perRF stojanovic 100 10 100 10 2.35)
              (AcousticChannel.perRF stojanovic 1000 10 100 10 2.35))
  /\ (both_le (AcousticChannel.per logistic_erfc stojanovic 1000 10 100 10 2.35)
              (AcousticChannel.per logistic_erfc stojanovic 1000 10 100 20 2.35)
      /\ both_le (AcousticChannel.perRF stojanovic 1000 10 100 10 2.35)
                 (AcousticChannel.perRF stojanovic 1000 10 100 20 2.35))
  /\ (both_le (OpticalChannel.per logistic_erfc photodiode 1 5 5 0 10)
              (OpticalChannel.per logistic_erfc photodiode 1 8 5 0 10)
      /\ both_le (OpticalChannel.perRF photodiode 1 5 5 0 10)
                 (OpticalChannel.perRF photodiode 1 8 5 0 10))
  /\ (both_le (OpticalChannel.per logistic_erfc photodiode 1 5 5 0 10)
              (OpticalChannel.per logistic_erfc photodiode 1 5 5 0 20)
      /\ both_le (OpticalChannel.perRF photodiode 1 5 5 0 10)
                 (OpticalChannel.perRF photodiode 1 5 5 0 20)).
Proof.
  pose proof (per_monotone logistic_erfc logistic_erfc_range
                logistic_erfc_antitone) as [Hac Hop].
  assert (Hf : 0 < 10) by lra.
  destruct (Hac 2.0 0.5 0 stojanovic 10 100 2.35 stojanovic_constructed Hf)
    as [Hacd Hacp].
  destruct (Hop photodiode 1 5 0) as [Hopd Hopp].
  assert (H5 : 0 < 5) by lra. assert (H8 : 0 < 8) by lra.
  destruct (photodiode_snr_at 5 H5) as [Hs5 Hpos5].
  destruct (photodiode_snr_at 8 H8) as [Hs8 _].
  assert (HAt : 0 <= oc_At photodiode)
    by (cbn [oc_At photodiode]; decimals; lra).
  split; [apply Hacd; [lra | lra | lia] | ].
  split; [apply Hacp; [lra | lia] | ].
  split.
  - apply (Hopd 5 8 10%Z (linear_snr photodiode 1 5 5 0)
             (linear_snr photodiode 1 8 5 0) HAt);
      [lra | lra | lia | exact Hs5 | exact Hs8 | exact Hpos5].
  - apply (Hopp 5 10%Z 20%Z (linear_snr photodiode 1 5 5 0) Hs5 Hpos5). lia.
Defined.

(** ** The empty packet *)

Lemma negative_resistance_snr :
  OpticalChannel.snr negative_resistance 1 1 0 0 = Ok (- (1000 / 1656)).
Proof.
  assert (Hspread : beam_spread negative_resistance 1 = 2).
  { unfold beam_spread. cbn [oc_theta oc_At negative_resistance].
    rewrite cos_0. ring. }
  assert (Hnoise : currentNoise negative_resistance
                   + thermalNoise negative_resistance = - (1656 / 1000)).
  { unfold currentNoise, thermalNoise, OpticalChannel.q, OpticalChannel.K.
    cbn [oc_Id oc_Il oc_bw oc_T oc_R negative_resistance]. decimals. field. }
  rewrite snr_ok.
  - f_equal. unfold linear_snr, received_power. rewrite Hspread, Hnoise.
    cbn [oc_S oc_Ar oc_c negative_resistance].
    rewrite cos_0. replace (- 0 * 0) with 0 by ring. rewrite exp_0. field.
  - rewrite Hspread. lra.
  - cbn [oc_R negative_resistance]. lra.
  - rewrite Hnoise. lra.
Qed.

(** C9, counterexample: an optical channel whose shunt resistance is
    negative has a negative SNR, here -1000/1656, which is finite and
    well defined; with [psize = 0] both [per] and [perRF] raise [ValueError]
    at their square root, and do not return 0. *)
Lemma empty_packet_negative_snr :
  OpticalChannel.snr negative_resistance 1 1 0 0 = Ok (- (1000 / 1656))
  /\ OpticalChannel.perRF negative_resistance 1 1 0 0 0 = Err ValueError
  /\ (forall erfc : R -> R,
         OpticalChannel.per erfc negative_resistance 1 1 0 0 0 = Err ValueError).
Proof.
  split; [exact negative_resistance_snr | ]. split.
  - rewrite optical_perRF_inline. unfold perRF_of_snr.
    rewrite negative_resistance_snr. cbn [bind].
    rewrite div_ok by lra. cbn [bind].
    rewrite sqrt_domain; [reflexivity | ].
    replace (- (1000 / 1656) / (1 + - (1000 / 1656))) with (- (1000 / 656))
      by (field; lra).
    lra.
  - intros erfc. rewrite optical_per_inline. unfold per_of_snr.
    rewrite negative_resistance_snr. cbn [bind].
    rewrite sqrt_domain by lra. reflexivity.
Qed.

Lemma empty_tail_value (x : R) :
  (w <- Py.ipow x (8 * 0) ;; Ok (1.0 - w)) = Ok 0.
Proof.
  rewrite ipow_ok by lia. cbn [bind].
  change (Z.to_nat (8 * 0)) with 0%nat. f_equal. simpl. lra.
Qed.

Lemma optical_per_empty_negative erfc self P distance d beta s :
  OpticalChannel.snr self P distance d beta = Ok s -> s < 0 ->
  OpticalChannel.per erfc self P distance d beta 0 = Err ValueError.
Proof.
  intros Hs Hneg. rewrite optical_per_inline. unfold per_of_snr.
  rewrite Hs. cbn [bind]. rewrite sqrt_domain by assumption. reflexivity.
Qed.

Lemma optical_perRF_empty_cases self P distance d beta s :
  OpticalChannel.snr self P distance d beta = Ok s ->
  (s < -1 -> OpticalChannel.perRF self P distance d beta 0 = Ok 0)
  /\ (s = -1 ->
      OpticalChannel.perRF self P distance d beta 0 = Err ZeroDivisionError)
  /\ (-1 < s < 0 ->
      OpticalChannel.perRF self P distance d beta 0 = Err ValueError).
Proof.
  intros Hs. rewrite optical_perRF_inline. unfold perRF_of_snr.
  rewrite Hs. cbn [bind]. split; [ | split].
  - intros Hlt. rewrite div_ok by lra. cbn [bind].
    assert (Hq : 0 <= s / (1 + s)).
    { replace (s / (1 + s)) with ((- s) * / (- (1 + s))) by (field; lra).
      apply Rmult_le_pos; [lra | ].
      left. apply Rinv_0_lt_compat. lra. }
    rewrite sqrt_ok by assumption. cbn [bind].
    apply empty_tail_value.
  - intros ->. replace (1 + -1) with 0 by ring. rewrite div_zero. reflexivity.
  - intros [Hlo Hhi]. rewrite div_ok by lra. cbn [bind].
    rewrite sqrt_domain; [reflexivity | ].
    replace (s / (1 + s)) with (- ((- s) * / (1 + s))) by (field; lra).
    assert (0 < (- s) * / (1 + s)).
    { apply Rmult_lt_0_compat; [lra | apply Rinv_0_lt_compat; lra]. }
    lra.
Qed.

(** C9, amended: with [psize = 0], [per] returns exactly 0 when the SNR is
    defined and not negative, and raises [ValueError] when it is negative;
    [perRF] returns exactly 0 when the SNR is defined and either not
    negative or below -1, raises [ValueError] when it lies strictly between
    -1 and 0, and raises [ZeroDivisionError] when it is -1.  On the acoustic
    channel the SNR is positive wherever the path loss and the noise are
    defined, so both return 0 there. *)
Theorem per_of_empty_packet (erfc : R -> R) :
  (forall self distance frequency Pt noise_bw pl n,
      AcousticChannel.pathloss self distance frequency = Ok pl ->
      AcousticChannel.noise self frequency = Ok n ->
      AcousticChannel.per erfc self distance frequency Pt 0 noise_bw = Ok 0
      /\ AcousticChannel.perRF self distance frequency Pt 0 noise_bw = Ok 0)
  /\ (forall self P distance d beta snr,
         OpticalChannel.snr self P distance d beta = Ok snr ->
         (0 <= snr ->
          OpticalChannel.per erfc self P distance d beta 0 = Ok 0
          /\ OpticalChannel.perRF self P distance d beta 0 = Ok 0)
         /\ (snr < 0 ->
             OpticalChannel.per erfc self P distance d beta 0 = Err ValueError)
         /\ (snr < -1 ->
             OpticalChannel.perRF self P distance d beta 0 = Ok 0)
         /\ (snr = -1 ->
             OpticalChannel.perRF self P distance d beta 0
             = Err ZeroDivisionError)
         /\ (-1 < snr < 0 ->
             OpticalChannel.perRF self P distance d beta 0 = Err ValueError)).
Proof.
  assert (Hz : (0 <= 0)%Z) by lia.
  split.
  - intros self distance frequency Pt noise_bw pl n Hpl Hn. split.
    + rewrite (acoustic_per_value erfc _ _ _ _ _ _ _ _ Hpl Hn Hz).
      rewrite packet_error_zero. reflexivity.
    + rewrite (acoustic_perRF_value _ _ _ _ _ _ _ _ Hpl Hn Hz).
      rewrite packet_error_zero. reflexivity.
  - intros self P distance d beta snr Hs.
    destruct (optical_perRF_empty_cases self P distance d beta snr Hs)
      as (Hbelow & Hminus & Hbetween).
    split; [ | split; [ | split; [ | split]]]; try assumption.
    + intros Hpos. split.
      * rewrite (optical_per_value erfc _ _ _ _ _ _ _ Hs Hpos Hz).
        rewrite packet_error_zero. reflexivity.
      * rewrite (optical_perRF_value _ _ _ _ _ _ _ Hs Hpos Hz).
        rewrite packet_error_zero. reflexivity.
    + intros Hneg.
      apply (optical_per_empty_negative erfc _ _ _ _ _ _ Hs Hneg).
Qed.

Lemma stojanovic_domain :
  exists pl n : R,
    AcousticChannel.pathloss stojanovic 1000 10 = Ok pl
    /\ AcousticChannel.noise stojanovic 10 = Ok n.
Proof.
  assert (Hw : 0 <= ac_w stojanovic) by (cbn; lra).
  assert (Hd : 0 < 1000) by lra. assert (Hf : 0 < 10) by lra.
  destruct (acoustic_domain stojanovic 1000 10 Hw Hd Hf) as (t & n & _ & Hpl & Hn).
  eexists. exists n. split; [exact Hpl | exact Hn].
Qed.

Lemma negative_dark_current_snr (P : R) :
  OpticalChannel.snr negative_dark_current P 1 0 0 = Ok (- (2 * P) ^ 2).
Proof.
  assert (Hspread : beam_spread negative_dark_current 1 = 1).
  { unfold beam_spread. cbn [oc_theta oc_At negative_dark_current].
    rewrite cos_0. decimals. field. }
  assert (Hnoise : currentNoise negative_dark_current
                   + thermalNoise negative_dark_current = -1).
  { unfold currentNoise, thermalNoise, OpticalChannel.q, OpticalChannel.K.
    cbn [oc_Id oc_Il oc_bw oc_T oc_R negative_dark_current]. decimals. field. }
  rewrite snr_ok.
  - f_equal. rewrite linear_snr_factors, Hspread, Hnoise.
    cbn [oc_S oc_Ar oc_c negative_dark_current].
    rewrite cos_0. replace (- 0 * 0) with 0 by ring. rewrite exp_0. field.
  - rewrite Hspread. lra.
  - cbn [oc_R negative_dark_current]. lra.
  - rewrite Hnoise. lra.
Qed.

Lemma per_of_empty_packet_witness :
  (AcousticChannel.per logistic_erfc stojanovic 1000 10 100 0 2.35 = Ok 0
   /\ AcousticChannel.perRF stojanovic 1000 10 100 0 2.35 = Ok 0)
  /\ (OpticalChannel.per logistic_erfc photodiode 1 5 5 0 0 = Ok 0
      /\ OpticalChannel.perRF photodiode 1 5 5 0 0 = Ok 0)
  /\ OpticalChannel.per logistic_erfc negative_resistance 1 1 0 0 0
     = Err ValueError
  /\ OpticalChannel.perRF negative_dark_current 1 1 0 0 0 = Ok 0
  /\ OpticalChannel.perRF negative_dark_current 0.5 1 0 0 0
     = Err ZeroDivisionError
  /\ OpticalChannel.perRF negative_resistance 1 1 0 0 0 = Err ValueError.
Proof.
  destruct stojanovic_domain as (pl & n & Hpl & Hn).
  destruct (per_of_empty_packet logistic_erfc) as [Hac Hop].
  split; [exact (Hac stojanovic 1000 10 100 2.35 pl n Hpl Hn) | ].
  split.
  { apply (proj1 (Hop photodiode 1 5 5 0 _ (proj1 photodiode_snr))).
    exact (proj2 photodiode_snr). }
  pose proof (Hop negative_resistance 1 1 0 0 _ negative_resistance_snr)
    as (_ & Hneg & _ & _ & Hbetween).
  pose proof (Hop negative_dark_current 1 1 0 0 _ (negative_dark_current_snr 1))
    as (_ & _ & Hbelow & _ & _).
  pose proof (Hop negative_dark_current 0.5 1 0 0 _
                (negative_dark_current_snr 0.5)) as (_ & _ & _ & Hminus & _).
  split; [apply Hneg; lra | ].
  split; [apply Hbelow; lra | ].
  split; [apply Hminus; decimals; field | apply Hbetween; lra].
Defined.

Lemma use_is_one_bernoulli_trial_witness :
  uniform_source halves
  /\ exists (per : R) (b : bool),
       AcousticChannel.perRF stojanovic 1000 10 100 10 2.35 = Ok per
       /\ AcousticChannel.use stojanovic 10 100 1000 10 halves
          = (Ok b, mkSource (stream halves) 1)
       /\ (b = true <-> 0.5 >= per).
Proof.
  split; [exact halves_uniform | ].
  pose proof (proj1 (use_is_one_bernoulli_trial halves halves_uniform)
                stojanovic 10 100 1000 10%Z) as H.
  destruct stojanovic_domain as (pl & n & Hpl & Hn).
  assert (Hp : (0 <= 10)%Z) by lia.
  rewrite (acoustic_perRF_value _ _ _ _ _ _ _ _ Hpl Hn Hp) in H.
  destruct H as (b & Huse & Hb & _).
  eexists. exists b. split; [ | split; [exact Huse | exact Hb]].
  apply (acoustic_perRF_value _ _ _ _ _ _ _ _ Hpl Hn Hp).
Defined.

(** * Further properties of the channels *)

(** ** Thorp's attenuation over the frequencies *)

Lemma thorp_value (frequency : R) :
  4100 + frequency <> 0 ->
  AcousticChannel.thorp frequency
  = Ok ((if Rlt_dec 0.4 (frequency ^ 2) then thorp_high_value frequency
         else thorp_low_value frequency) / 1000).
Proof.
  intros Hd. destruct (Rlt_dec 0.4 (frequency ^ 2)) as [Hhi | Hlo].
  - apply (proj1 (thorp_two_branches_aux frequency)); [lra | assumption].
  - apply (proj2 (thorp_two_branches_aux frequency)). lra.
Qed.

Lemma thorp_at_minus_4100 :
  AcousticChannel.thorp (-4100) = Err ZeroDivisionError.
Proof.
  unfold AcousticChannel.thorp.
  assert (Hlt : Py.lt 0.4 ((-4100) ^ 2) = true) by (apply lt_true; lra).
  rewrite Hlt, thorp_high_zero_division by lra. reflexivity.
Qed.

(** X1: [thorp] divides by zero at one frequency only: it raises
    [ZeroDivisionError] exactly when [frequency = -4100], where the high
    branch divides by [4100 + frequency]. *)
Theorem thorp_zero_division_iff (frequency : R) :
  AcousticChannel.thorp frequency = Err ZeroDivisionError
  <-> frequency = -4100.
Proof.
  split.
  - intros H. destruct (Req_dec_T frequency (-4100)) as [E | Hne];
      [assumption | exfalso].
    rewrite thorp_value in H by lra. discriminate.
  - intros ->. exact thorp_at_minus_4100.
Qed.

Lemma thorp_zero_division_iff_witness :
  AcousticChannel.thorp (-4100) = Err ZeroDivisionError
  /\ AcousticChannel.thorp 10 <> Err ZeroDivisionError.
Proof.
  split.
  - apply (proj2 (thorp_zero_division_iff (-4100))). reflexivity.
  - intros H. apply (proj1 (thorp_zero_division_iff 10)) in H. lra.
Defined.

Lemma square_monotone (x y : R) : 0 <= x -> x <= y -> x ^ 2 <= y ^ 2.
Proof. intros Hx Hxy. apply pow_incr. lra. Qed.

Lemma spreading_term_monotone (x y : R) :
  0 < x -> x <= y -> x ^ 2 / (4100 + x) <= y ^ 2 / (4100 + y).
Proof.
  intros Hx Hxy.
  apply Rmult_le_reg_r with ((4100 + x) * (4100 + y)); [nra | ].
  replace (x ^ 2 / (4100 + x) * ((4100 + x) * (4100 + y)))
    with (x ^ 2 * (4100 + y)) by (field; lra).
  replace (y ^ 2 / (4100 + y) * ((4100 + x) * (4100 + y)))
    with (y ^ 2 * (4100 + x)) by (field; lra).
  assert (Hprod : 0 <= (y - x) * (4100 * (y + x) + x * y)).
  { apply Rmult_le_pos; [lra | ].
    assert (0 < x * y) by (apply Rmult_lt_0_compat; lra). lra. }
  replace (y ^ 2 * (4100 + x))
    with (x ^ 2 * (4100 + y) + (y - x) * (4100 * (y + x) + x * y)) by ring.
  lra.
Qed.

Lemma thorp_low_value_monotone (x y : R) :
  0 <= x -> x <= y -> thorp_low_value x <= thorp_low_value y.
Proof.
  intros Hx Hxy. unfold thorp_low_value.
  pose proof (square_monotone x y Hx Hxy) as Hsq.
  assert (H0 : 0 <= x ^ 2) by apply pow2_ge_0.
  pose proof (ratio_monotone (x ^ 2) (y ^ 2) H0 Hsq) as Hr.
  replace (0.11 * x ^ 2 / (1 + x ^ 2)) with (0.11 * (x ^ 2 / (1 + x ^ 2)))
    by (unfold Rdiv; ring).
  replace (0.11 * y ^ 2 / (1 + y ^ 2)) with (0.11 * (y ^ 2 / (1 + y ^ 2)))
    by (unfold Rdiv; ring).
  revert Hr Hsq. decimals. intros. lra.
Qed.

Lemma thorp_high_value_monotone (x y : R) :
  0 < x -> x <= y -> thorp_high_value x <= thorp_high_value y.
Proof.
  intros Hx Hxy. unfold thorp_high_value.
  assert (Hx0 : 0 <= x) by lra.
  pose proof (square_monotone x y Hx0 Hxy) as Hsq.
  assert (H0 : 0 <= x ^ 2) by apply pow2_ge_0.
  pose proof (ratio_monotone (x ^ 2) (y ^ 2) H0 Hsq) as Hr.
  pose proof (spreading_term_monotone x y Hx Hxy) as Hg.
  replace (0.11 * x ^ 2 / (1 + x ^ 2)) with (0.11 * (x ^ 2 / (1 + x ^ 2)))
    by (unfold Rdiv; ring).
  replace (0.11 * y ^ 2 / (1 + y ^ 2)) with (0.11 * (y ^ 2 / (1 + y ^ 2)))
    by (unfold Rdiv; ring).
  replace (44 * x ^ 2 / (4100 + x)) with (44 * (x ^ 2 / (4100 + x)))
    by (unfold Rdiv; ring).
  replace (44 * y ^ 2 / (4100 + y)) with (44 * (y ^ 2 / (4100 + y)))
    by (unfold Rdiv; ring).
  revert Hr Hsq Hg. decimals. intros. lra.
Qed.

(** Across the boundary: a low-branch value is below a high-branch one. *)
Lemma thorp_low_below_high (x y : R) :
  0 < x -> x ^ 2 <= 0.4 -> 0.4 < y ^ 2 -> 0 < y ->
  thorp_low_value x <= thorp_high_value y.
Proof.
  intros Hx Hlo Hhi Hy.
  assert (Hxy : x <= y) by (revert Hlo Hhi; decimals; intros; nra).
  assert (Hx0 : 0 <= x) by lra.
  pose proof (square_monotone x y Hx0 Hxy) as Hsq.
  assert (H0 : 0 <= x ^ 2) by apply pow2_ge_0.
  pose proof (ratio_monotone (x ^ 2) (y ^ 2) H0 Hsq) as Hr.
  set (g := y ^ 2 / (4100 + y)).
  assert (Hg : g * (4100 + y) = y ^ 2) by (unfold g; field; lra).
  assert (Hgpos : 0.63 ^ 2 / (4100 + 0.63) <= g).
  { apply spreading_term_monotone; [lra | ].
    revert Hhi. decimals. intros. nra. }
  assert (Hnum : 0.00009 <= 0.63 ^ 2 / (4100 + 0.63)).
  { apply Rmult_le_reg_r with (4100 + 0.63); [lra | ].
    replace (0.63 ^ 2 / (4100 + 0.63) * (4100 + 0.63)) with (0.63 ^ 2)
      by (field; lra).
    decimals. lra. }
  unfold thorp_low_value, thorp_high_value.
  replace (0.11 * x ^ 2 / (1 + x ^ 2)) with (0.11 * (x ^ 2 / (1 + x ^ 2)))
    by (unfold Rdiv; ring).
  replace (0.11 * y ^ 2 / (1 + y ^ 2)) with (0.11 * (y ^ 2 / (1 + y ^ 2)))
    by (unfold Rdiv; ring).
  replace (44 * y ^ 2 / (4100 + y)) with (44 * g) by (unfold g, Rdiv; ring).
  assert (Hg9 : 0.00009 <= g) by lra. clear Hgpos Hnum Hg.
  revert Hr Hlo Hhi Hg9. decimals. intros. lra.
Qed.

Lemma Ok_injective {A : Type} (a b : A) : Ok a = Ok b -> a = b.
Proof. intros H. congruence. Qed.

Lemma thorp_monotone_aux (f1 f2 : R) :
  0 < f1 -> f1 <= f2 ->
  exists t1 t2 : R,
    AcousticChannel.thorp f1 = Ok t1 /\ AcousticChannel.thorp f2 = Ok t2
    /\ 0 < t1 /\ t1 <= t2.
Proof.
  intros H1 H12.
  destruct (thorp_positive f1 H1) as (t1 & Ht1 & Hpos).
  exists t1. eexists. split; [exact Ht1 | ].
  split; [apply thorp_value; lra | ]. split; [assumption | ].
  rewrite thorp_value in Ht1 by lra. apply Ok_injective in Ht1. subst t1.
  assert (Hsq : f1 ^ 2 <= f2 ^ 2) by (apply square_monotone; lra).
  apply Rmult_le_compat_r; [lra | ].
  destruct (Rlt_dec 0.4 (f1 ^ 2)) as [Hhi1 | Hlo1];
    destruct (Rlt_dec 0.4 (f2 ^ 2)) as [Hhi2 | Hlo2].
  - apply thorp_high_value_monotone; assumption.
  - lra.
  - apply thorp_low_below_high; lra.
  - apply thorp_low_value_monotone; lra.
Qed.

(** X2: over the positive frequencies [thorp] returns a positive
    attenuation that does not decrease when the frequency grows, the jump at
    the branch boundary included. *)
Theorem thorp_monotone (f1 f2 : R) :
  0 < f1 -> f1 <= f2 ->
  exists t1 t2 : R,
    AcousticChannel.thorp f1 = Ok t1 /\ AcousticChannel.thorp f2 = Ok t2
    /\ 0 < t1 /\ t1 <= t2.
Proof. exact (thorp_monotone_aux f1 f2). Qed.

Lemma thorp_monotone_witness :
  exists t1 t2 : R,
    AcousticChannel.thorp 0.5 = Ok t1 /\ AcousticChannel.thorp 10 = Ok t2
    /\ 0 < t1 /\ t1 <= t2.
Proof. apply (thorp_monotone 0.5 10); lra. Defined.

(** ** Path loss *)

Lemma pathloss_domain_error (self : AcousticChannel) (distance frequency : R) :
  distance <= 0 ->
  AcousticChannel.pathloss self distance frequency = Err ValueError.
Proof.
  intros Hd. unfold AcousticChannel.pathloss.
  rewrite log10_domain by assumption. reflexivity.
Qed.

(** X3: [pathloss] takes [log10 distance] before anything else: at a
    distance that is zero or negative it raises [ValueError], whatever the
    channel and the frequency are, also at the frequency at which [thorp]
    would raise [ZeroDivisionError]; at a positive distance it returns
    [10 * k * log10 distance + distance * thorp frequency] whenever [thorp]
    returns. *)
Theorem pathloss_domain (self : AcousticChannel) (distance frequency : R) :
  (distance <= 0 ->
   AcousticChannel.pathloss self distance frequency = Err ValueError)
  /\ (0 < distance ->
      forall t : R,
        AcousticChannel.thorp frequency = Ok t ->
        AcousticChannel.pathloss self distance frequency
        = Ok (10 * ac_k self * (ln distance / ln 10) + distance * t))
  /\ (0 < distance -> frequency = -4100 ->
      AcousticChannel.pathloss self distance frequency = Err ZeroDivisionError).
Proof.
  split; [apply pathloss_domain_error | ]. split.
  - intros Hd t Ht. rewrite (pathloss_ok self distance frequency t Hd Ht).
    f_equal. lra.
  - intros Hd ->. unfold AcousticChannel.pathloss.
    rewrite log10_ok by assumption. cbn [bind].
    rewrite thorp_at_minus_4100. reflexivity.
Qed.

Lemma pathloss_domain_witness :
  AcousticChannel.pathloss stojanovic 0 (-4100) = Err ValueError
  /\ (exists t : R,
         AcousticChannel.thorp 10 = Ok t
         /\ AcousticChannel.pathloss stojanovic 1000 10
            = Ok (10 * ac_k stojanovic * (ln 1000 / ln 10) + 1000 * t))
  /\ AcousticChannel.pathloss stojanovic 1000 (-4100) = Err ZeroDivisionError.
Proof.
  pose proof (pathloss_domain stojanovic 0 (-4100)) as [H0 _].
  pose proof (pathloss_domain stojanovic 1000 10) as (_ & H1 & _).
  pose proof (pathloss_domain stojanovic 1000 (-4100)) as (_ & _ & H2).
  split; [apply H0; lra | ]. split.
  - assert (Hf : 0 < 10) by lra.
    destruct (thorp_positive 10 Hf) as (t & Ht & _).
    exists t. split; [exact Ht | apply H1; [lra | exact Ht]].
  - apply H2; [lra | reflexivity].
Defined.

(** X4: at a positive distance the path loss does not decrease when the
    frequency grows over the positive frequencies. *)
Theorem pathloss_monotone_frequency (self : AcousticChannel)
  (distance f1 f2 : R) :
  0 < distance -> 0 < f1 -> f1 <= f2 ->
  both_le (AcousticChannel.pathloss self distance f1)
          (AcousticChannel.pathloss self distance f2).
Proof.
  intros Hd H1 H12.
  destruct (thorp_monotone_aux f1 f2 H1 H12) as (t1 & t2 & Ht1 & Ht2 & _ & Hle).
  do 2 eexists.
  split; [apply (pathloss_ok self distance f1 t1 Hd Ht1) | ].
  split; [apply (pathloss_ok self distance f2 t2 Hd Ht2) | ].
  assert (distance * t1 <= distance * t2)
    by (apply Rmult_le_compat_l; lra).
  lra.
Qed.

Lemma pathloss_monotone_frequency_witness :
  both_le (AcousticChannel.pathloss stojanovic 1000 0.5)
          (AcousticChannel.pathloss stojanovic 1000 10).
Proof. apply (pathloss_monotone_frequency stojanovic 1000 0.5 10); lra. Defined.

(** ** Ambient noise *)

Lemma noise_sum_pos (self : AcousticChannel) (frequency : R) :
  0 < noise_sum self frequency.
Proof. unfold noise_sum. repeat apply Rplus_lt_0_compat; apply fpow_pos. Qed.

Lemma noise_ok (self : AcousticChannel) (frequency : R) :
  0 < frequency -> 0 <= ac_w self ->
  AcousticChannel.noise self frequency
  = Ok (10 * log10r (noise_sum self frequency)).
Proof.
  intros Hf Hw. unfold AcousticChannel.noise.
  assert (H3 : 0 < frequency + 0.03) by lra.
  assert (H4 : 0 < frequency + 0.4) by lra.
  rewrite (log10_ok frequency) by assumption. cbn [bind].
  rewrite (log10_ok (frequency + 0.03)) by assumption. cbn [bind].
  rewrite sqrt_ok by assumption. cbn [bind].
  rewrite (log10_ok (frequency + 0.4)) by assumption. cbn [bind].
  rewrite log10_ok; [reflexivity | ].
  exact (noise_sum_pos self frequency).
Qed.

Lemma noise_domain_error (self : AcousticChannel) (frequency : R) :
  frequency <= 0 -> AcousticChannel.noise self frequency = Err ValueError.
Proof.
  intros Hf. unfold AcousticChannel.noise.
  rewrite log10_domain by assumption. reflexivity.
Qed.

Lemma log10_inv_err (x : R) (e : exn) : Py.log10 x = Err e -> e = ValueError.
Proof.
  unfold Py.log10. destruct (Rlt_dec 0 x); intros H; [discriminate | congruence].
Qed.

Lemma noise_negative_wind (self : AcousticChannel) (frequency : R) :
  ac_w self < 0 -> AcousticChannel.noise self frequency = Err ValueError.
Proof.
  intros Hw. unfold AcousticChannel.noise.
  destruct (Py.log10 frequency) as [l | e] eqn:El; cbn [bind].
  - destruct (Py.log10 (frequency + 0.03)) as [l2 | e] eqn:El2; cbn [bind].
    + rewrite sqrt_domain by assumption. reflexivity.
    + apply log10_inv_err in El2. subst e. reflexivity.
  - apply log10_inv_err in El. subst e. reflexivity.
Qed.

Lemma noise_inv (self : AcousticChannel) (frequency n : R) :
  AcousticChannel.noise self frequency = Ok n ->
  0 < frequency /\ 0 <= ac_w self
  /\ n = 10 * log10r (noise_sum self frequency).
Proof.
  intros H.
  destruct (Rlt_dec 0 frequency) as [Hf | Hf].
  2:{ rewrite noise_domain_error in H by lra. discriminate. }
  destruct (Rle_dec 0 (ac_w self)) as [Hw | Hw].
  2:{ rewrite noise_negative_wind in H by lra. discriminate. }
  rewrite noise_ok in H by assumption. apply Ok_injective in H.
  repeat split; [assumption | assumption | symmetry; assumption].
Qed.

(** X5: on a channel whose wind speed is not negative (every constructed
    one), [noise] raises [ValueError] exactly when [frequency <= 0].
    Whenever [noise] returns a value, on any channel, the frequency is
    positive, the wind speed is not negative and the value is [10 * log10]
    of the sum of the four noise powers. *)
Theorem noise_value_error_iff (self : AcousticChannel) (frequency : R) :
  (0 <= ac_w self ->
   (AcousticChannel.noise self frequency = Err ValueError
    <-> frequency <= 0))
  /\ (forall n : R,
         AcousticChannel.noise self frequency = Ok n ->
         0 < frequency /\ 0 <= ac_w self
         /\ n = 10 * log10r (noise_sum self frequency)).
Proof.
  split; [ | apply noise_inv].
  intros Hw. split.
  - intros H. destruct (Rle_dec frequency 0) as [Hf | Hf];
      [assumption | exfalso].
    rewrite noise_ok in H by lra. discriminate.
  - apply noise_domain_error.
Qed.

Lemma noise_value_error_iff_witness :
  AcousticChannel.noise stojanovic 0 = Err ValueError
  /\ AcousticChannel.noise stojanovic 10 <> Err ValueError.
Proof.
  assert (Hw : 0 <= ac_w stojanovic) by (cbn [ac_w stojanovic]; lra).
  split.
  - apply (proj2 (proj1 (noise_value_error_iff stojanovic 0) Hw)). lra.
  - intros H.
    apply (proj1 (proj1 (noise_value_error_iff stojanovic 10) Hw)) in H. lra.
Defined.

Lemma log10r_monotone (x y : R) : 0 < x -> x <= y -> log10r x <= log10r y.
Proof.
  intros Hx Hxy. unfold log10r, Rdiv.
  apply Rmult_le_compat_r.
  - left. apply Rinv_0_lt_compat. exact ln_10_pos.
  - destruct Hxy as [Hlt | ->]; [left; apply ln_increasing; assumption | lra].
Qed.

Lemma log10r_fpow (y : R) : log10r (Py.fpow 10 y) = y.
Proof.
  unfold log10r, Py.fpow, Rpower. rewrite ln_exp. field.
  pose proof ln_10_pos. lra.
Qed.

Lemma fpow_log10r (x : R) : 0 < x -> Py.fpow 10 (10 * log10r x / 10) = x.
Proof.
  intros Hx. unfold log10r, Py.fpow, Rpower.
  replace (10 * (ln x / ln 10) / 10 * ln 10) with (ln x)
    by (field; pose proof ln_10_pos; lra).
  apply exp_ln. assumption.
Qed.

Lemma noise_sum_monotone (k1 k2 s1 s2 w1 w2 frequency : R) :
  s1 <= s2 -> w1 <= w2 ->
  noise_sum (mkAcoustic k1 s1 w1) frequency
  <= noise_sum (mkAcoustic k2 s2 w2) frequency.
Proof.
  intros Hs Hw. unfold noise_sum.
  assert (Hsh : Py.fpow 10 (shipping_dB (mkAcoustic k1 s1 w1) frequency * 0.1)
                <= Py.fpow 10 (shipping_dB (mkAcoustic k2 s2 w2) frequency * 0.1)).
  { apply fpow_10_monotone. unfold shipping_dB. cbn [ac_s]. lra. }
  assert (Hwi : Py.fpow 10 (wind_dB (mkAcoustic k1 s1 w1) frequency * 0.1)
                <= Py.fpow 10 (wind_dB (mkAcoustic k2 s2 w2) frequency * 0.1)).
  { apply fpow_10_monotone. unfold wind_dB. cbn [ac_w].
    pose proof (sqrt_le_1_alt w1 w2 Hw). lra. }
  lra.
Qed.

(** X6: at a positive frequency the noise does not decrease when the
    shipping activity [s] grows or the wind speed [w] grows, and it does not
    depend on the spreading factor [k]. *)
Theorem noise_monotone_shipping_wind (k1 k2 s1 s2 w1 w2 frequency : R) :
  0 < frequency -> s1 <= s2 -> 0 <= w1 -> w1 <= w2 ->
  both_le (AcousticChannel.noise (mkAcoustic k1 s1 w1) frequency)
          (AcousticChannel.noise (mkAcoustic k2 s2 w2) frequency).
Proof.
  intros Hf Hs Hw1 Hw.
  do 2 eexists.
  split; [apply noise_ok; [assumption | cbn [ac_w]; lra] | ].
  split; [apply noise_ok; [assumption | cbn [ac_w]; lra] | ].
  pose proof (noise_sum_monotone k1 k2 s1 s2 w1 w2 frequency Hs Hw) as Hsum.
  pose proof (log10r_monotone _ _ (noise_sum_pos _ frequency) Hsum).
  lra.
Qed.

Lemma noise_monotone_shipping_wind_witness :
  both_le (AcousticChannel.noise (mkAcoustic 1.0 0.2 0) 10)
          (AcousticChannel.noise (mkAcoustic 2.0 0.8 5) 10).
Proof.
  apply (noise_monotone_shipping_wind 1.0 2.0 0.2 0.8 0 5 10); lra.
Defined.

(** X7: the noise is at least each of its four components: on a channel
    whose wind speed is not negative and at a positive frequency, the value
    of [noise] is not below the turbulence, shipping, wind and thermal
    levels in dB that it sums. *)
Theorem noise_dominates_components (self : AcousticChannel) (frequency : R) :
  0 <= ac_w self -> 0 < frequency ->
  exists n : R,
    AcousticChannel.noise self frequency = Ok n
    /\ 17 - 30 * (ln frequency / ln 10) <= n
    /\ 40 + 20 * (ac_s self - 0.5) + 26 * (ln frequency / ln 10)
       - 60 * (ln (frequency + 0.03) / ln 10) <= n
    /\ 50 + 7.5 * sqrt (ac_w self) + 20 * (ln frequency / ln 10)
       - 40 * (ln (frequency + 0.4) / ln 10) <= n
    /\ 20 * (ln frequency / ln 10) - 15 <= n.
Proof.
  intros Hw Hf. eexists. split; [apply noise_ok; assumption | ].
  fold (log10r frequency) (log10r (frequency + 0.03))
       (log10r (frequency + 0.4)).
  fold (turbulence_dB frequency) (shipping_dB self frequency)
       (wind_dB self frequency) (thermal_dB frequency).
  pose proof (fpow_pos 10 (turbulence_dB frequency * 0.1)) as H1.
  pose proof (fpow_pos 10 (shipping_dB self frequency * 0.1)) as H2.
  pose proof (fpow_pos 10 (wind_dB self frequency * 0.1)) as H3.
  pose proof (fpow_pos 10 (thermal_dB frequency * 0.1)) as H4.
  assert (Hcomp : forall x : R,
             Py.fpow 10 (x * 0.1) <= noise_sum self frequency ->
             x <= 10 * log10r (noise_sum self frequency)).
  { intros x Hx.
    pose proof (log10r_monotone _ _ (fpow_pos 10 (x * 0.1)) Hx) as Hl.
    rewrite log10r_fpow in Hl. lra. }
  repeat split; apply Hcomp; unfold noise_sum; lra.
Qed.

Lemma noise_dominates_components_witness :
  exists n : R,
    AcousticChannel.noise stojanovic 10 = Ok n
    /\ 17 - 30 * (ln 10 / ln 10) <= n
    /\ 40 + 20 * (ac_s stojanovic - 0.5) + 26 * (ln 10 / ln 10)
       - 60 * (ln (10 + 0.03) / ln 10) <= n
    /\ 50 + 7.5 * sqrt (ac_w stojanovic) + 20 * (ln 10 / ln 10)
       - 40 * (ln (10 + 0.4) / ln 10) <= n
    /\ 20 * (ln 10 / ln 10) - 15 <= n.
Proof.
  apply (noise_dominates_components stojanovic 10); cbn [ac_w stojanovic]; lra.
Defined.

(** ** The acoustic SNR in dB *)

(** X8: the SNR that the acoustic [per] and [perRF] compute inline is the
    power [10 ** (snr_dB / 10)] of the value of [snr_dB] on the same
    arguments, whatever is passed to [snr_dB] as packet size; they raise
    where [snr_dB] raises. *)
Theorem acoustic_per_uses_snr_dB (erfc : R -> R) (self : AcousticChannel)
  (distance frequency Pt : R) (psize : Z) (noise_bw : R) (v : value) :
  AcousticChannel.per erfc self distance frequency Pt psize noise_bw
  = (snrdB <- AcousticChannel.snr_dB self distance frequency Pt v noise_bw ;;
     r <- Py.sqrt (Py.fpow 10 (snrdB / 10)) ;;
     w <- Py.ipow (1.0 - 0.5 * erfc r) (8 * psize) ;;
     Ok (1.0 - w))
  /\ AcousticChannel.perRF self distance frequency Pt psize noise_bw
     = (snrdB <- AcousticChannel.snr_dB self distance frequency Pt v noise_bw ;;
        ratio <- Py.div (Py.fpow 10 (snrdB / 10))
                        (1 + Py.fpow 10 (snrdB / 10)) ;;
        r <- Py.sqrt ratio ;;
        w <- Py.ipow (1.0 - 0.5 * (1 - r)) (8 * psize) ;;
        Ok (1.0 - w)).
Proof.
  unfold AcousticChannel.per, AcousticChannel.perRF, AcousticChannel.snr_dB.
  destruct (AcousticChannel.pathloss self distance frequency) as [pl | e];
    cbn [bind]; [ | split; reflexivity].
  destruct (AcousticChannel.noise self frequency) as [n | e];
    cbn [bind]; split; reflexivity.
Qed.

(** X9: [snr_dB] is the transmission power minus the losses: raising [Pt] by
    [delta] dB raises the result by [delta], and the packet size passed to
    it has no effect. *)
Theorem snr_dB_shifts_with_power (self : AcousticChannel)
  (distance frequency Pt delta noise_bw : R) (v1 v2 : value) :
  AcousticChannel.snr_dB self distance frequency (Pt + delta) v1 noise_bw
  = (x <- AcousticChannel.snr_dB self distance frequency Pt v2 noise_bw ;;
     Ok (x + delta)).
Proof.
  unfold AcousticChannel.snr_dB.
  destruct (AcousticChannel.pathloss self distance frequency) as [pl | e];
    cbn [bind]; [ | reflexivity].
  destruct (AcousticChannel.noise self frequency) as [n | e];
    cbn [bind]; [ | reflexivity].
  f_equal. lra.
Qed.

(** ** The optical SNR: dB, power and the dark transmitter *)

Lemma optical_snr_dB_cases (self : OpticalChannel) (P distance d beta : R) :
  match OpticalChannel.snr self P distance d beta with
  | Ok s =>
      (s <= 0 ->
       OpticalChannel.snr_dB self P distance d beta = Err ValueError)
      /\ (0 < s ->
          exists v : R,
            OpticalChannel.snr_dB self P distance d beta = Ok v
            /\ v = 10 * (ln s / ln 10)
            /\ Py.fpow 10 (v / 10) = s)
  | Err e => OpticalChannel.snr_dB self P distance d beta = Err e
  end.
Proof.
  unfold OpticalChannel.snr_dB.
  destruct (OpticalChannel.snr self P distance d beta) as [s | e];
    cbn [bind]; [ | reflexivity].
  split.
  - intros Hs. rewrite log10_domain by assumption. reflexivity.
  - intros Hs. rewrite log10_ok by assumption. cbn [bind].
    eexists. split; [reflexivity | ]. split; [reflexivity | ].
    apply (fpow_log10r s Hs).
Qed.

(** X10: the optical [snr_dB] is [10 * log10] of [snr] where [snr] is
    positive, and there the conversion back, [10 ** (snr_dB / 10)], gives
    [snr] again; where [snr] is zero or negative it raises [ValueError], and
    where [snr] raises it raises the same exception. *)
Theorem optical_snr_dB_round_trip (self : OpticalChannel)
  (P distance d beta : R) :
  match OpticalChannel.snr self P distance d beta with
  | Ok s =>
      (s <= 0 ->
       OpticalChannel.snr_dB self P distance d beta = Err ValueError)
      /\ (0 < s ->
          exists v : R,
            OpticalChannel.snr_dB self P distance d beta = Ok v
            /\ v = 10 * (ln s / ln 10)
            /\ Py.fpow 10 (v / 10) = s)
  | Err e => OpticalChannel.snr_dB self P distance d beta = Err e
  end.
Proof. exact (optical_snr_dB_cases self P distance d beta). Qed.

Lemma photodiode_snr_pos : 0 < linear_snr photodiode 1 5 5 0.
Proof.
  pose proof (physical_noise photodiode physical_photodiode) as [_ HN].
  assert (Hd : 0 < 5) by lra.
  pose proof (physical_spread photodiode 5 physical_photodiode Hd) as HD.
  pose proof (exp_pos (- oc_c photodiode * 5)) as He.
  unfold linear_snr. apply Rdiv_lt_0_compat; [ | assumption].
  apply pow_lt. apply Rmult_lt_0_compat.
  - cbn [oc_S photodiode]. decimals. lra.
  - unfold received_power. apply Rmult_lt_0_compat; [ | assumption].
    apply Rdiv_lt_0_compat; [ | assumption].
    rewrite cos_0. cbn [oc_Ar photodiode]. decimals. lra.
Qed.

Lemma optical_snr_scaling (self : OpticalChannel) (lam P distance d beta : R) :
  OpticalChannel.snr self (lam * P) distance d beta
  = (s <- OpticalChannel.snr self P distance d beta ;; Ok (lam ^ 2 * s)).
Proof.
  unfold OpticalChannel.snr, Py.pi.
  fold (beam_spread self distance).
  destruct (Req_dec_T (beam_spread self distance) 0) as [E | HD].
  { rewrite E, !div_zero. reflexivity. }
  rewrite !(div_ok _ (beam_spread self distance)) by assumption. cbn [bind].
  destruct (Req_dec_T (oc_R self) 0) as [E | HR].
  { rewrite E, !div_zero. reflexivity. }
  rewrite !(div_ok _ (oc_R self)) by assumption. cbn [bind].
  fold (thermalNoise self) (currentNoise self).
  destruct (Req_dec_T (currentNoise self + thermalNoise self) 0) as [E | HN].
  { rewrite E, !div_zero. reflexivity. }
  rewrite !div_ok by assumption. cbn [bind].
  f_equal. field. split; assumption.
Qed.

(** X11: the optical SNR is quadratic in the transmitted power: multiplying
    [P] by [lam] multiplies the value of [snr] by [lam ** 2], and changes
    nothing to whether [snr] raises. *)
Theorem optical_snr_quadratic_in_power (self : OpticalChannel)
  (lam P distance d beta : R) :
  OpticalChannel.snr self (lam * P) distance d beta
  = (s <- OpticalChannel.snr self P distance d beta ;; Ok (lam ^ 2 * s)).
Proof. exact (optical_snr_scaling self lam P distance d beta). Qed.

Lemma dark_snr (self : OpticalChannel) (distance d beta s : R) :
  OpticalChannel.snr self 0 distance d beta = Ok s -> s = 0.
Proof.
  intros Hs. apply snr_inv in Hs as (HD & HR & HN & ->).
  unfold linear_snr, received_power. field. split; assumption.
Qed.

Lemma half_power (n : nat) : (1 - 0.5 * (1 - 0)) ^ n = (1 / 2) ^ n.
Proof. f_equal. lra. Qed.

(** X12: with no transmitted power, [P = 0], wherever [snr] returns it
    returns 0; [snr_dB] raises [ValueError] there, and [perRF] is the error
    rate of a packet whose every bit is a coin flip,
    [1 - (1/2) ** (8 * psize)]. *)
Theorem dark_transmitter (self : OpticalChannel) (distance d beta s : R)
  (psize : Z) :
  OpticalChannel.snr self 0 distance d beta = Ok s -> (0 <= psize)%Z ->
  s = 0
  /\ OpticalChannel.snr_dB self 0 distance d beta = Err ValueError
  /\ OpticalChannel.perRF self 0 distance d beta psize
     = Ok (1 - (1 / 2) ^ Z.to_nat (8 * psize)).
Proof.
  intros Hs Hp. pose proof (dark_snr self distance d beta s Hs) as ->.
  split; [reflexivity | ]. split.
  - pose proof (optical_snr_dB_cases self 0 distance d beta) as H.
    rewrite Hs in H. apply H. lra.
  - assert (H0 : 0 <= 0) by lra.
    rewrite (optical_perRF_value self 0 distance d beta psize 0 Hs H0 Hp).
    unfold packet_error, ber_rayleigh. f_equal.
    replace (0 / (1 + 0)) with 0 by field. rewrite sqrt_0.
    rewrite half_power. reflexivity.
Qed.

Lemma photodiode_dark : OpticalChannel.snr photodiode 0 5 5 0 = Ok 0.
Proof.
  assert (Hd : 0 < 5) by lra.
  destruct (optical_snr_defined photodiode 0 5 5 0 physical_photodiode Hd)
    as [Hs _].
  rewrite Hs. f_equal. exact (dark_snr photodiode 5 5 0 _ Hs).
Qed.

Lemma dark_transmitter_witness :
  OpticalChannel.snr photodiode 0 5 5 0 = Ok 0
  /\ OpticalChannel.snr_dB photodiode 0 5 5 0 = Err ValueError
  /\ OpticalChannel.perRF photodiode 0 5 5 0 10
     = Ok (1 - (1 / 2) ^ Z.to_nat (8 * 10)).
Proof.
  assert (Hp : (0 <= 10)%Z) by lia.
  destruct (dark_transmitter photodiode 5 5 0 0 10 photodiode_dark Hp)
    as (_ & Hdb & Hper).
  split; [exact photodiode_dark | split; [exact Hdb | exact Hper]].
Defined.

Lemma optical_snr_dB_round_trip_witness :
  (exists v : R,
      OpticalChannel.snr_dB photodiode 1 5 5 0 = Ok v
      /\ Py.fpow 10 (v / 10) = linear_snr photodiode 1 5 5 0)
  /\ OpticalChannel.snr_dB photodiode 0 5 5 0 = Err ValueError.
Proof.
  split.
  - pose proof (optical_snr_dB_round_trip photodiode 1 5 5 0) as H.
    rewrite (proj1 photodiode_snr) in H.
    destruct (proj2 H photodiode_snr_pos) as (v & Hv & _ & Hback).
    exists v. split; assumption.
  - pose proof (optical_snr_dB_round_trip photodiode 0 5 5 0) as H.
    rewrite photodiode_dark in H. apply (proj1 H). lra.
Defined.

(** ** Transmissions *)

(** X13: the two channels draw from the same source.  When an acoustic
    transmission is followed by an optical one and both error rates are
    defined, the first is decided by the next number of the source and the
    second by the number after it, and the source ends two positions
    further with its numbers unchanged. *)
Theorem uses_share_the_source (rs : RandomSource)
  (ac : AcousticChannel) (frequency power distance : R) (packetSize : Z)
  (oc : OpticalChannel) (P dist d beta : R) (psize : Z) (p1 p2 : R) :
  AcousticChannel.perRF ac distance frequency power packetSize 2.35 = Ok p1 ->
  OpticalChannel.perRF oc P dist d beta psize = Ok p2 ->
  let first := AcousticChannel.use ac frequency power distance packetSize rs in
  let second := OpticalChannel.use oc P dist d beta psize (snd first) in
  fst first = Ok (negb (Py.lt (stream rs (consumed rs)) p1))
  /\ fst second = Ok (negb (Py.lt (stream rs (S (consumed rs))) p2))
  /\ snd second = mkSource (stream rs) (S (S (consumed rs))).
Proof.
  intros H1 H2 first second.
  pose proof (acoustic_use_cases ac frequency power distance packetSize rs) as Ha.
  rewrite H1 in Ha. fold first in Ha.
  pose proof (optical_use_cases oc P dist d beta psize (snd first)) as Ho.
  rewrite H2 in Ho. fold second in Ho.
  rewrite Ho, Ha. cbn [fst snd random stream consumed].
  repeat split; reflexivity.
Qed.

Lemma stojanovic_perRF :
  exists p : R, AcousticChannel.perRF stojanovic 1000 10 100 10 2.35 = Ok p.
Proof.
  destruct stojanovic_domain as (pl & n & Hpl & Hn).
  assert (Hp : (0 <= 10)%Z) by lia.
  eexists. apply (acoustic_perRF_value _ _ _ _ _ _ _ _ Hpl Hn Hp).
Qed.

Lemma photodiode_perRF :
  exists p : R, OpticalChannel.perRF photodiode 1 5 5 0 10 = Ok p.
Proof.
  assert (Hp : (0 <= 10)%Z) by lia.
  eexists.
  apply (optical_perRF_value _ _ _ _ _ _ _ (proj1 photodiode_snr)
           (proj2 photodiode_snr) Hp).
Qed.

Lemma uses_share_the_source_witness :
  exists p1 p2 : R,
    fst (AcousticChannel.use stojanovic 10 100 1000 10 halves)
    = Ok (negb (Py.lt 0.5 p1))
    /\ fst (OpticalChannel.use photodiode 1 5 5 0 10
              (snd (AcousticChannel.use stojanovic 10 100 1000 10 halves)))
       = Ok (negb (Py.lt 0.5 p2))
    /\ snd (OpticalChannel.use photodiode 1 5 5 0 10
              (snd (AcousticChannel.use stojanovic 10 100 1000 10 halves)))
       = mkSource (stream halves) 2.
Proof.
  destruct stojanovic_perRF as (p1 & H1).
  destruct photodiode_perRF as (p2 & H2).
  exists p1, p2.
  exact (uses_share_the_source halves stojanovic 10 100 1000 10
           photodiode 1 5 5 0 10 p1 p2 H1 H2).
Defined.

Lemma draw_succeeds_at_zero (rs : RandomSource) :
  uniform_source rs -> negb (Py.lt (fst (random rs)) 0) = true.
Proof.
  intros Hrs. apply not_lt_iff_ge. cbn [fst random].
  destruct (Hrs (consumed rs)). lra.
Qed.

(** X14: an empty packet always gets through.  With a packet size of 0 and
    a source of draws in [0,1), [use] returns true and takes one draw: on
    the acoustic channel wherever the path loss and the noise are defined,
    on the optical channel wherever [snr] returns a value that is not
    negative. *)
Theorem use_of_empty_packet (rs : RandomSource) :
  uniform_source rs ->
  (forall self frequency power distance pl n,
      AcousticChannel.pathloss self distance frequency = Ok pl ->
      AcousticChannel.noise self frequency = Ok n ->
      AcousticChannel.use self frequency power distance 0 rs
      = (Ok true, mkSource (stream rs) (S (consumed rs))))
  /\ (forall self P distance d beta s,
         OpticalChannel.snr self P distance d beta = Ok s -> 0 <= s ->
         OpticalChannel.use self P distance d beta 0 rs
         = (Ok true, mkSource (stream rs) (S (consumed rs)))).
Proof.
  intros Hrs. assert (Hz : (0 <= 0)%Z) by lia. split.
  - intros self frequency power distance pl n Hpl Hn.
    pose proof (acoustic_use_cases self frequency power distance 0 rs) as H.
    rewrite (acoustic_perRF_value _ _ _ _ _ _ _ _ Hpl Hn Hz) in H.
    rewrite packet_error_zero in H.
    rewrite H, (draw_succeeds_at_zero rs Hrs). reflexivity.
  - intros self P distance d beta s Hs Hpos.
    pose proof (optical_use_cases self P distance d beta 0 rs) as H.
    rewrite (optical_perRF_value _ _ _ _ _ _ _ Hs Hpos Hz) in H.
    rewrite packet_error_zero in H.
    rewrite H, (draw_succeeds_at_zero rs Hrs). reflexivity.
Qed.

Lemma use_of_empty_packet_witness :
  AcousticChannel.use stojanovic 10 100 1000 0 halves
  = (Ok true, mkSource (stream halves) 1)
  /\ OpticalChannel.use photodiode 1 5 5 0 0 halves
     = (Ok true, mkSource (stream halves) 1).
Proof.
  destruct (use_of_empty_packet halves halves_uniform) as [Ha Ho].
  destruct stojanovic_domain as (pl & n & Hpl & Hn).
  split.
  - exact (Ha stojanovic 10 100 1000 pl n Hpl Hn).
  - exact (Ho photodiode 1 5 5 0 _ (proj1 photodiode_snr) (proj2 photodiode_snr)).
Defined.

(** ** More on the packet error rate *)

Lemma ber_rayleigh_at_most_half (snr : R) : ber_rayleigh snr <= 1 / 2.
Proof.
  unfold ber_rayleigh. pose proof (sqrt_pos (snr / (1 + snr))).
  decimals. lra.
Qed.

Lemma packet_error_rayleigh_bound (snr : R) (psize : Z) :
  0 <= snr ->
  0 <= packet_error (ber_rayleigh snr) psize
       <= 1 - (1 / 2) ^ Z.to_nat (8 * psize).
Proof.
  intros Hs.
  pose proof (ber_rayleigh_range snr Hs) as Hr.
  pose proof (ber_rayleigh_at_most_half snr) as Hh.
  pose proof (packet_error_range _ psize Hr) as [H0 _].
  assert (Hpow : (1 / 2) ^ Z.to_nat (8 * psize)
                 <= (1 - ber_rayleigh snr) ^ Z.to_nat (8 * psize))
    by (apply pow_incr; lra).
  assert (Hhalf : 0 < (1 / 2) ^ Z.to_nat (8 * psize)) by (apply pow_lt; lra).
  unfold packet_error in *. lra.
Qed.

(** X15: under Rayleigh fading the bit error rate never exceeds one half, so
    [perRF] never exceeds the error rate of a packet whose every bit is a
    coin flip: for a packet size that is not negative its value lies between
    0 and [1 - (1/2) ** (8 * psize)], on the acoustic channel wherever the
    path loss and the noise are defined and on the optical channel wherever
    [snr] returns a value that is not negative. *)
Theorem perRF_below_coin_flip (psize : Z) :
  (0 <= psize)%Z ->
  (forall self distance frequency Pt noise_bw pl n,
      AcousticChannel.pathloss self distance frequency = Ok pl ->
      AcousticChannel.noise self frequency = Ok n ->
      exists v : R,
        AcousticChannel.perRF self distance frequency Pt psize noise_bw = Ok v
        /\ 0 <= v <= 1 - (1 / 2) ^ Z.to_nat (8 * psize))
  /\ (forall self P distance d beta s,
         OpticalChannel.snr self P distance d beta = Ok s -> 0 <= s ->
         exists v : R,
           OpticalChannel.perRF self P distance d beta psize = Ok v
           /\ 0 <= v <= 1 - (1 / 2) ^ Z.to_nat (8 * psize)).
Proof.
  intros Hp. split.
  - intros self distance frequency Pt noise_bw pl n Hpl Hn.
    eexists. split; [apply (acoustic_perRF_value _ _ _ _ _ _ _ _ Hpl Hn Hp) | ].
    apply packet_error_rayleigh_bound. left. apply acoustic_snr_pos.
  - intros self P distance d beta s Hs Hpos.
    eexists. split; [apply (optical_perRF_value _ _ _ _ _ _ _ Hs Hpos Hp) | ].
    apply packet_error_rayleigh_bound. assumption.
Qed.

Lemma perRF_below_coin_flip_witness :
  (exists v : R,
      AcousticChannel.perRF stojanovic 1000 10 100 10 2.35 = Ok v
      /\ 0 <= v <= 1 - (1 / 2) ^ Z.to_nat (8 * 10))
  /\ (exists v : R,
         OpticalChannel.perRF photodiode 1 5 5 0 10 = Ok v
         /\ 0 <= v <= 1 - (1 / 2) ^ Z.to_nat (8 * 10)).
Proof.
  assert (Hp : (0 <= 10)%Z) by lia.
  destruct (perRF_below_coin_flip 10 Hp) as [Ha Ho].
  destruct stojanovic_domain as (pl & n & Hpl & Hn).
  split.
  - exact (Ha stojanovic 1000 10 100 2.35 pl n Hpl Hn).
  - exact (Ho photodiode 1 5 5 0 _ (proj1 photodiode_snr) (proj2 photodiode_snr)).
Defined.

Lemma packet_error_concat (ber : R) (n m : Z) :
  (0 <= n)%Z -> (0 <= m)%Z ->
  1 - packet_error ber (n + m)
  = (1 - packet_error ber n) * (1 - packet_error ber m).
Proof.
  intros Hn Hm. unfold packet_error.
  replace (Z.to_nat (8 * (n + m)))
    with (Z.to_nat (8 * n) + Z.to_nat (8 * m))%nat by lia.
  rewrite pow_add. ring.
Qed.

(** X16: packets concatenate.  For packet sizes [n] and [m] that are not
    negative, the success probability [1 - per] of a packet of [n + m] bytes
    is the product of the success probabilities of a packet of [n] bytes and
    of one of [m] bytes, for [per] and [perRF] of both channels, wherever
    the SNR is defined and not negative. *)
Theorem success_of_concatenated_packets (erfc : R -> R) (n m : Z) :
  (0 <= n)%Z -> (0 <= m)%Z ->
  (forall self distance frequency Pt noise_bw pl nz,
      AcousticChannel.pathloss self distance frequency = Ok pl ->
      AcousticChannel.noise self frequency = Ok nz ->
      success_multiplies
        (AcousticChannel.per erfc self distance frequency Pt n noise_bw)
        (AcousticChannel.per erfc self distance frequency Pt m noise_bw)
        (AcousticChannel.per erfc self distance frequency Pt (n + m) noise_bw)
      /\ success_multiplies
           (AcousticChannel.perRF self distance frequency Pt n noise_bw)
           (AcousticChannel.perRF self distance frequency Pt m noise_bw)
           (AcousticChannel.perRF self distance frequency Pt (n + m) noise_bw))
  /\ (forall self P distance d beta s,
         OpticalChannel.snr self P distance d beta = Ok s -> 0 <= s ->
         success_multiplies
           (OpticalChannel.per erfc self P distance d beta n)
           (OpticalChannel.per erfc self P distance d beta m)
           (OpticalChannel.per erfc self P distance d beta (n + m))
         /\ success_multiplies
              (OpticalChannel.perRF self P distance d beta n)
              (OpticalChannel.perRF self P distance d beta m)
              (OpticalChannel.perRF self P distance d beta (n + m))).
Proof.
  intros Hn Hm. assert (Hnm : (0 <= n + m)%Z) by lia. split.
  - intros self distance frequency Pt noise_bw pl nz Hpl Hnz. split.
    + do 3 eexists.
      split; [apply (acoustic_per_value erfc _ _ _ _ _ _ _ _ Hpl Hnz Hn) | ].
      split; [apply (acoustic_per_value erfc _ _ _ _ _ _ _ _ Hpl Hnz Hm) | ].
      split; [apply (acoustic_per_value erfc _ _ _ _ _ _ _ _ Hpl Hnz Hnm) | ].
      apply packet_error_concat; assumption.
    + do 3 eexists.
      split; [apply (acoustic_perRF_value _ _ _ _ _ _ _ _ Hpl Hnz Hn) | ].
      split; [apply (acoustic_perRF_value _ _ _ _ _ _ _ _ Hpl Hnz Hm) | ].
      split; [apply (acoustic_perRF_value _ _ _ _ _ _ _ _ Hpl Hnz Hnm) | ].
      apply packet_error_concat; assumption.
  - intros self P distance d beta s Hs Hpos. split.
    + do 3 eexists.
      split; [apply (optical_per_value erfc _ _ _ _ _ _ _ Hs Hpos Hn) | ].
      split; [apply (optical_per_value erfc _ _ _ _ _ _ _ Hs Hpos Hm) | ].
      split; [apply (optical_per_value erfc _ _ _ _ _ _ _ Hs Hpos Hnm) | ].
      apply packet_error_concat; assumption.
    + do 3 eexists.
      split; [apply (optical_perRF_value _ _ _ _ _ _ _ Hs Hpos Hn) | ].
      split; [apply (optical_perRF_value _ _ _ _ _ _ _ Hs Hpos Hm) | ].
      split; [apply (optical_perRF_value _ _ _ _ _ _ _ Hs Hpos Hnm) | ].
      apply packet_error_concat; assumption.
Qed.

Lemma success_of_concatenated_packets_witness :
  success_multiplies
    (AcousticChannel.perRF stojanovic 1000 10 100 10 2.35)
    (AcousticChannel.perRF stojanovic 1000 10 100 20 2.35)
    (AcousticChannel.perRF stojanovic 1000 10 100 (10 + 20) 2.35)
  /\ success_multiplies
       (OpticalChannel.per logistic_erfc photodiode 1 5 5 0 10)
       (OpticalChannel.per logistic_erfc photodiode 1 5 5 0 20)
       (OpticalChannel.per logistic_erfc photodiode 1 5 5 0 (10 + 20)).
Proof.
  assert (Hn : (0 <= 10)%Z) by lia. assert (Hm : (0 <= 20)%Z) by lia.
  destruct (success_of_concatenated_packets logistic_erfc 10 20 Hn Hm)
    as [Ha Ho].
  destruct stojanovic_domain as (pl & n & Hpl & Hnz).
  split.
  - exact (proj2 (Ha stojanovic 1000 10 100 2.35 pl n Hpl Hnz)).
  - exact (proj1 (Ho photodiode 1 5 5 0 _ (proj1 photodiode_snr)
                    (proj2 photodiode_snr))).
Defined.

(** ** Transmitted power *)

Lemma acoustic_snr_monotone_power (Pt1 Pt2 pl noise_bw n : R) :
  Pt1 <= Pt2 -> acoustic_snr Pt1 pl noise_bw n <= acoustic_snr Pt2 pl noise_bw n.
Proof. intros H. apply fpow_10_monotone. lra. Qed.

(** X18: more transmitted power does not raise the error rate of the
    acoustic channel: wherever the path loss and the noise are defined and
    for a packet size that is not negative, [per] and [perRF] at the larger
    [Pt] are not above their values at the smaller one.  [erfc] takes its
    values between 0 and 2 and does not increase. *)
Theorem acoustic_per_antitone_in_power (erfc : R -> R) :
  (forall x : R, 0 <= erfc x <= 2) ->
  (forall x y : R, x <= y -> erfc y <= erfc x) ->
  forall self distance frequency Pt1 Pt2 psize noise_bw pl n,
    AcousticChannel.pathloss self distance frequency = Ok pl ->
    AcousticChannel.noise self frequency = Ok n ->
    (0 <= psize)%Z -> Pt1 <= Pt2 ->
    both_le (AcousticChannel.per erfc self distance frequency Pt2 psize noise_bw)
            (AcousticChannel.per erfc self distance frequency Pt1 psize noise_bw)
    /\ both_le (AcousticChannel.perRF self distance frequency Pt2 psize noise_bw)
               (AcousticChannel.perRF self distance frequency Pt1 psize noise_bw).
Proof.
  intros Hrange Hanti self distance frequency Pt1 Pt2 psize noise_bw pl n
    Hpl Hn Hp HPt.
  pose proof (acoustic_snr_monotone_power Pt1 Pt2 pl noise_bw n HPt) as Hsnr.
  split.
  - do 2 eexists.
    split; [apply (acoustic_per_value erfc _ _ _ _ _ _ _ _ Hpl Hn Hp) | ].
    split; [apply (acoustic_per_value erfc _ _ _ _ _ _ _ _ Hpl Hn Hp) | ].
    apply packet_error_mono_ber;
      [apply ber_awgn_antitone; assumption | apply ber_awgn_range, Hrange].
  - do 2 eexists.
    split; [apply (acoustic_perRF_value _ _ _ _ _ _ _ _ Hpl Hn Hp) | ].
    split; [apply (acoustic_perRF_value _ _ _ _ _ _ _ _ Hpl Hn Hp) | ].
    apply packet_error_mono_ber.
    + apply ber_rayleigh_antitone; [left; apply acoustic_snr_pos | assumption].
    + apply ber_rayleigh_range. left. apply acoustic_snr_pos.
Qed.

Lemma acoustic_per_antitone_in_power_witness :
  both_le (AcousticChannel.per logistic_erfc stojanovic 1000 10 120 10 2.35)
          (AcousticChannel.per logistic_erfc stojanovic 1000 10 100 10 2.35)
  /\ both_le (AcousticChannel.perRF stojanovic 1000 10 120 10 2.35)
             (AcousticChannel.perRF stojanovic 1000 10 100 10 2.35).
Proof.
  destruct stojanovic_domain as (pl & n & Hpl & Hn).
  apply (acoustic_per_antitone_in_power logistic_erfc logistic_erfc_range
           logistic_erfc_antitone stojanovic 1000 10 100 120 10%Z 2.35 pl n
           Hpl Hn); [lia | lra].
Defined.

(** X19: more transmitted power does not raise the error rate of the optical
    channel: where [snr] returns a value that is not negative at [P], for a
    factor [lam >= 1] and a packet size that is not negative, [per] and
    [perRF] at [lam * P] are not above their values at [P].  [erfc] takes
    its values between 0 and 2 and does not increase. *)
Theorem optical_per_antitone_in_power (erfc : R -> R) :
  (forall x : R, 0 <= erfc x <= 2) ->
  (forall x y : R, x <= y -> erfc y <= erfc x) ->
  forall self lam P distance d beta psize s,
    OpticalChannel.snr self P distance d beta = Ok s -> 0 <= s ->
    1 <= lam -> (0 <= psize)%Z ->
    both_le (OpticalChannel.per erfc self (lam * P) distance d beta psize)
            (OpticalChannel.per erfc self P distance d beta psize)
    /\ both_le (OpticalChannel.perRF self (lam * P) distance d beta psize)
               (OpticalChannel.perRF self P distance d beta psize).
Proof.
  intros Hrange Hanti self lam P distance d beta psize s Hs Hpos Hlam Hp.
  pose proof (optical_snr_scaling self lam P distance d beta) as Hs'.
  rewrite Hs in Hs'. cbn [bind] in Hs'.
  assert (Hone : 1 <= lam ^ 2) by nra.
  assert (Hle : s <= lam ^ 2 * s) by nra.
  assert (Hpos' : 0 <= lam ^ 2 * s) by nra.
  split.
  - do 2 eexists.
    split; [apply (optical_per_value erfc _ _ _ _ _ _ _ Hs' Hpos' Hp) | ].
    split; [apply (optical_per_value erfc _ _ _ _ _ _ _ Hs Hpos Hp) | ].
    apply packet_error_mono_ber;
      [apply ber_awgn_antitone; assumption | apply ber_awgn_range, Hrange].
  - do 2 eexists.
    split; [apply (optical_perRF_value _ _ _ _ _ _ _ Hs' Hpos' Hp) | ].
    split; [apply (optical_perRF_value _ _ _ _ _ _ _ Hs Hpos Hp) | ].
    apply packet_error_mono_ber;
      [apply ber_rayleigh_antitone; assumption
      | apply ber_rayleigh_range; assumption].
Qed.

Lemma optical_per_antitone_in_power_witness :
  both_le (OpticalChannel.per logistic_erfc photodiode (2 * 1) 5 5 0 10)
          (OpticalChannel.per logistic_erfc photodiode 1 5 5 0 10)
  /\ both_le (OpticalChannel.perRF photodiode (2 * 1) 5 5 0 10)
             (OpticalChannel.perRF photodiode 1 5 5 0 10).
Proof.
  apply (optical_per_antitone_in_power logistic_erfc logistic_erfc_range
           logistic_erfc_antitone photodiode 2 1 5 5 0 10%Z _
           (proj1 photodiode_snr) (proj2 photodiode_snr)); [lra | lia].
Defined.

(** ** Negative packet sizes *)

Lemma ipow_negative (x : R) (n : Z) :
  (n < 0)%Z -> x <> 0 -> Py.ipow x n = Ok (/ x ^ Z.to_nat (- n)).
Proof.
  intros Hn Hx. unfold Py.ipow.
  destruct (Z.ltb_spec n 0); [ | lia].
  destruct (Req_dec_T x 0); [contradiction | ].
  f_equal. destruct n as [ | p | p]; try lia.
  cbn [powerRZ Z.opp]. rewrite Z2Nat.inj_pos. reflexivity.
Qed.

Lemma rayleigh_tail_negative (snr : R) (psize : Z) :
  0 <= snr -> (psize < 0)%Z ->
  exists v : R,
    (ratio <- Py.div snr (1 + snr) ;;
     r <- Py.sqrt ratio ;;
     w <- Py.ipow (1.0 - 0.5 * (1 - r)) (8 * psize) ;;
     Ok (1.0 - w)) = Ok v
    /\ v <= 0.
Proof.
  intros Hs Hp. rewrite div_ok by lra. cbn [bind].
  rewrite sqrt_ok by (apply ratio_range; assumption). cbn [bind].
  pose proof (ber_rayleigh_range snr Hs) as Hr.
  pose proof (ber_rayleigh_at_most_half snr) as Hh.
  unfold ber_rayleigh in Hr, Hh.
  set (x := 1.0 - 0.5 * (1 - sqrt (snr / (1 + snr)))).
  assert (Hx : 1 / 2 <= x <= 1) by (unfold x; revert Hr Hh; decimals; lra).
  rewrite ipow_negative by (lia || lra). cbn [bind].
  eexists. split; [reflexivity | ].
  assert (Hunit : 0 <= x <= 1) by lra.
  pose proof (pow_unit_interval x (Z.to_nat (- (8 * psize))) Hunit) as [_ Hle].
  assert (Hpos : 0 < x ^ Z.to_nat (- (8 * psize))) by (apply pow_lt; lra).
  assert (/ 1 <= / x ^ Z.to_nat (- (8 * psize)))
    by (apply Rinv_le_contravar; assumption).
  rewrite Rinv_1 in H. lra.
Qed.

(** X20: a negative packet size is not rejected, and it never gives a
    positive error rate.  Wherever the SNR is defined and not negative, every
    value that [perRF] returns on a negative [psize] is zero or negative,
    which is no probability of error; and for [-100 <= psize < 0], where the
    power [(1 - ber) ** (8 * psize)] is at most [2 ** 800], it does return
    one. *)
Theorem perRF_of_negative_size (psize : Z) :
  (psize < 0)%Z ->
  (forall self distance frequency Pt noise_bw pl n,
      AcousticChannel.pathloss self distance frequency = Ok pl ->
      AcousticChannel.noise self frequency = Ok n ->
      (forall v : R,
          AcousticChannel.perRF self distance frequency Pt psize noise_bw
          = Ok v -> v <= 0)
      /\ ((-100 <= psize)%Z ->
          exists v : R,
            AcousticChannel.perRF self distance frequency Pt psize noise_bw
            = Ok v /\ v <= 0))
  /\ (forall self P distance d beta s,
         OpticalChannel.snr self P distance d beta = Ok s -> 0 <= s ->
         (forall v : R,
             OpticalChannel.perRF self P distance d beta psize = Ok v ->
             v <= 0)
         /\ ((-100 <= psize)%Z ->
             exists v : R,
               OpticalChannel.perRF self P distance d beta psize = Ok v
               /\ v <= 0)).
Proof.
  intros Hp. split.
  - intros self distance frequency Pt noise_bw pl n Hpl Hn.
    assert (H : exists v : R,
               AcousticChannel.perRF self distance frequency Pt psize noise_bw
               = Ok v /\ v <= 0).
    { unfold AcousticChannel.perRF. rewrite Hpl, Hn. cbn [bind].
      apply rayleigh_tail_negative; [left; apply fpow_pos | assumption]. }
    split; [ | intros _; exact H].
    destruct H as (v0 & Hv0 & Hle). intros v Hv.
    rewrite Hv0 in Hv. apply Ok_injective in Hv. lra.
  - intros self P distance d beta s Hs Hpos.
    assert (H : exists v : R,
               OpticalChannel.perRF self P distance d beta psize = Ok v
               /\ v <= 0).
    { rewrite optical_perRF_inline. unfold perRF_of_snr.
      rewrite Hs. cbn [bind]. apply rayleigh_tail_negative; assumption. }
    split; [ | intros _; exact H].
    destruct H as (v0 & Hv0 & Hle). intros v Hv.
    rewrite Hv0 in Hv. apply Ok_injective in Hv. lra.
Qed.

Lemma perRF_of_negative_size_witness :
  (exists v : R,
      AcousticChannel.perRF stojanovic 1000 10 100 (-1) 2.35 = Ok v /\ v <= 0)
  /\ (exists v : R,
         OpticalChannel.perRF photodiode 1 5 5 0 (-1) = Ok v /\ v <= 0).
Proof.
  assert (Hp : (-1 < 0)%Z) by lia.
  assert (Hb : (-100 <= -1)%Z) by lia.
  destruct (perRF_of_negative_size (-1) Hp) as [Ha Ho].
  destruct stojanovic_domain as (pl & n & Hpl & Hn).
  split.
  - exact (proj2 (Ha stojanovic 1000 10 100 2.35 pl n Hpl Hn) Hb).
  - exact (proj2 (Ho photodiode 1 5 5 0 _ (proj1 photodiode_snr)
                    (proj2 photodiode_snr)) Hb).
Defined.
